(** * Virus population growth: a shallow embedding of
      [Modelling_Virus_Population_Growth.py]

    The simulator core is four classes: [SimpleVirus], [ResistantVirus],
    [Patient] and [TreatedPatient].  Their methods are translated below
    statement by statement.

    Conventions of the embedding:
    - A Python float is the rational number it denotes ([Q]; the inputs
      are finite floats).  Comparisons of floats are exact.  Subtraction,
      multiplication, division and [float(n)] round, so they are the
      operations of a [FloatArith], a parameter of the development; what
      the proofs use of them is stated in [FloatLaws].  An infinite
      product only ever meets a comparison with a draw, where it behaves
      as a large rational of its sign.
    - [random.random()] reads the next element of a fixed sequence of draws;
      the position in that sequence is the only global state.
    - [raise] / [try ... except] become an outcome type with the
      exceptions the code can raise.
    - A Python [dict] is the list of its items in insertion order. *)

From Stdlib Require Import String List Bool Arith ZArith QArith Lia Lqa.
Import ListNotations.
Open Scope Q_scope.

(* ------------------------------------------------------------------ *)
(** ** Effects: the random source and exceptions *)

Module Py.

(** The values successive calls to [random.random()] return. *)
Definition Draws := nat -> Q.

(** Every draw lies in the half-open unit interval. *)
Definition unit_draws (rnd : Draws) : Prop :=
  forall i : nat, 0 <= rnd i /\ rnd i < 1.

Inductive exn : Set :=
| NoChildException
| ZeroDivisionError
| OverflowError.

(** Result of running a computation: a value or a raised exception,
    with the number of draws consumed so far. *)
Inductive outcome (A : Type) : Type :=
| Normal (a : A) (pos : nat)
| Raised (e : exn) (pos : nat).
Arguments Normal {A} a pos.
Arguments Raised {A} e pos.

Definition M (A : Type) : Type := Draws -> nat -> outcome A.

Definition ret {A} (a : A) : M A := fun _ pos => Normal a pos.

Definition bind {A B} (m : M A) (k : A -> M B) : M B :=
  fun rnd pos =>
    match m rnd pos with
    | Normal a pos' => k a rnd pos'
    | Raised e pos' => Raised e pos'
    end.

Definition raise {A} (e : exn) : M A := fun _ pos => Raised e pos.

(** [try: m except NoChildException: h] *)
Definition try_except_NoChild {A} (m : M A) (h : M A) : M A :=
  fun rnd pos =>
    match m rnd pos with
    | Normal a pos' => Normal a pos'
    | Raised NoChildException pos' => h rnd pos'
    | Raised e pos' => Raised e pos'
    end.

(** [random.random()] *)
Definition random : M Q := fun rnd pos => Normal (rnd pos) (S pos).

(** [for x in xs: acc = body(acc, x)] *)
Fixpoint for_each {A X} (xs : list X) (body : A -> X -> M A) (acc : A) : M A :=
  match xs with
  | [] => ret acc
  | x :: rest => bind (body acc x) (fun acc' => for_each rest body acc')
  end.

(** Float comparisons [a >= b] and [a > b]. *)
Definition ge (a b : Q) : bool := Qle_bool b a.
Definition gt (a b : Q) : bool := negb (Qle_bool a b).

(** Double-precision arithmetic on finite floats: [a - b], [a * b],
    [a / b] for [b] not zero, each rounded as the machine rounds it;
    [float(n)] for an integer, [None] when it raises [OverflowError]; and
    the conversion of a list length, which (a list holding at most
    [sys.maxsize] items) always succeeds. *)
Class FloatArith : Type := {
  fsub : Q -> Q -> Q;
  fmul : Q -> Q -> Q;
  fdiv : Q -> Q -> Q;
  float_of_int : Z -> option Q;
  float_of_len : nat -> Q
}.

(** What the proofs use of the arithmetic; each law holds of IEEE 754
    doubles rounded to nearest. *)
Class FloatLaws (FA : FloatArith) : Prop := {
  (** [x - x] is [0.0] *)
  fsub_same : forall x y, x == y -> fsub x y == 0;
  (** [x - 0.0] is [x] *)
  fsub_zero : forall x y, y == 0 -> fsub x y == x;
  (** [1 - d] is not positive when [d >= 1] *)
  fsub_one_ge : forall d, 1 <= d -> fsub 1 d <= 0;
  (** a product of a non-negative and a non-positive float is not
      positive *)
  fmul_sign : forall a b, 0 <= a -> b <= 0 -> fmul a b <= 0;
  (** [float(0)] is [0.0], and no other integer converts to [0.0] *)
  float_of_int_0 : exists f, float_of_int 0 = Some f /\ f == 0;
  float_of_int_nonzero : forall z f, float_of_int z = Some f -> f == 0 -> z = 0%Z;
  (** [n / float(m)] is at least [1.0] when [n >= m > 0] *)
  fdiv_ge_one : forall (n : nat) (m : Z) fm,
      (0 < m)%Z -> (m <= Z.of_nat n)%Z -> float_of_int m = Some fm ->
      1 <= fdiv (float_of_len n) fm
}.

(** [n / float(d)] for a list length [n] and an integer [d]: [float(d)]
    raises [OverflowError] when [d] is too large for a float, and the
    division raises [ZeroDivisionError] on the divisor [0.0]. *)
Definition float_div {FA : FloatArith} (n : nat) (d : Z) : M Q :=
  match float_of_int d with
  | None => raise OverflowError
  | Some fd =>
      if Qeq_bool fd 0 then raise ZeroDivisionError
      else ret (fdiv (float_of_len n) fd)
  end.


End Py.

Import Py.

Declare Scope py_scope.
Delimit Scope py_scope with py.
Notation "x <- m ;; k" := (bind m (fun x => k))
  (at level 61, m at next level, right associativity) : py_scope.
Open Scope py_scope.

(* ------------------------------------------------------------------ *)
(** ** Dictionaries of resistances *)

Module Dict.

(** Items in insertion order; keys are drug names. *)
Definition t := list (string * bool).

Definition keys (d : t) : list string := map fst d.

(** Keys of a dictionary are pairwise distinct. *)
Definition wf (d : t) : Prop := NoDup (keys d).

(** [d.get(k)]: [None] when the key is absent. *)
Fixpoint get (d : t) (k : string) : option bool :=
  match d with
  | [] => None
  | (k', v) :: rest => if String.eqb k' k then Some v else get rest k
  end.

(** [d[k] = v]: overwrite in place, or append a new item. *)
Fixpoint set (d : t) (k : string) (v : bool) : t :=
  match d with
  | [] => [(k, v)]
  | (k', v') :: rest =>
      if String.eqb k' k then (k', v) :: rest else (k', v') :: set rest k v
  end.

(** [x == False] for the result of [get]: [None == False] is [False]. *)
Definition eq_False (x : option bool) : bool :=
  match x with
  | Some false => true
  | _ => false
  end.

(** [x == True] for the result of [get]. *)
Definition eq_True (x : option bool) : bool :=
  match x with
  | Some true => true
  | _ => false
  end.

End Dict.

(* ------------------------------------------------------------------ *)
(** ** class SimpleVirus *)

Module SimpleVirus.

Record t : Type := new {
  maxBirthProb : Q;
  clearProb : Q
}.

Definition getMaxBirthProb (self : t) : Q := maxBirthProb self.
Definition getClearProb (self : t) : Q := clearProb self.

(** [if self.getClearProb() >= random.random(): return True
     else: return False] *)
Definition doesClear (self : t) : M bool :=
  r <- random ;;
  if ge (getClearProb self) r then ret true else ret false.

(** [if self.maxBirthProb * (1-popDensity) >= random.random():
       return SimpleVirus(...)
     else: raise NoChildException] *)
Definition reproduce {FA : FloatArith} (self : t) (popDensity : Q) : M t :=
  r <- random ;;
  if ge (fmul (maxBirthProb self) (fsub 1 popDensity)) r
  then ret (new (getMaxBirthProb self) (getClearProb self))
  else raise NoChildException.

End SimpleVirus.

(* ------------------------------------------------------------------ *)
(** ** The two loops shared by [Patient.update] and
       [TreatedPatient.update]

    Both methods have the same body; they differ only in the class of the
    particles and in the arguments passed to [reproduce]. *)

Section UpdateLoops.

Context {V : Type}.
(** [virus.doesClear()] *)
Variable clears : V -> M bool.
(** [virus.reproduce(popDensity)] or
    [virus.reproduce(popDensity, self.getPrescriptions())] *)
Variable repro : V -> M V.

(** [if virus.doesClear() == False: surviving_virus.append(virus)] *)
Definition survival_step (surviving_virus : list V) (virus : V) : M (list V) :=
  c <- clears virus ;;
  if Bool.eqb c false then ret (surviving_virus ++ [virus])
  else ret surviving_virus.

(** [surviving_virus = []; for virus in self.getViruses(): ...] *)
Definition survival_loop (vs : list V) : M (list V) :=
  for_each vs survival_step [].

(** [try: new_virus.append(virus.reproduce(...))
     except NoChildException: pass] *)
Definition reproduction_step (new_virus : list V) (virus : V) : M (list V) :=
  try_except_NoChild
    (child <- repro virus ;; ret (new_virus ++ [child]))
    (ret new_virus).

(** [new_virus = []; for virus in surviving_virus: ...] *)
Definition reproduction_loop (surviving_virus : list V) : M (list V) :=
  for_each surviving_virus reproduction_step [].

End UpdateLoops.

(* ------------------------------------------------------------------ *)
(** ** class Patient *)

Module Patient.

Record t : Type := new {
  viruses : list SimpleVirus.t;
  maxPop : Z
}.

Definition getViruses (self : t) : list SimpleVirus.t := viruses self.
Definition getMaxPop (self : t) : Z := maxPop self.
Definition getTotalPop (self : t) : nat := length (viruses self).

(** [Patient.update]: the patient after the assignment to
    [self.viruses], and the returned total. *)
Definition update {FA : FloatArith} (self : t) : M (t * nat) :=
  surviving_virus <- survival_loop SimpleVirus.doesClear (getViruses self) ;;
  popDensity <- float_div (length surviving_virus) (getMaxPop self) ;;
  new_virus <-
    reproduction_loop
      (fun virus => SimpleVirus.reproduce virus popDensity)
      surviving_virus ;;
  let self' := new (new_virus ++ surviving_virus) (maxPop self) in
  ret (self', length (viruses self')).

End Patient.

(* ------------------------------------------------------------------ *)
(** ** class ResistantVirus(SimpleVirus) *)

Module ResistantVirus.

Record t : Type := new' {
  base : SimpleVirus.t;          (* fields set by SimpleVirus.__init__ *)
  resistance : Dict.t;
  mutProb : Q
}.

Definition new (maxBirthProb clearProb : Q) (resistances : Dict.t) (mutProb : Q) : t :=
  new' (SimpleVirus.new maxBirthProb clearProb) resistances mutProb.

Definition maxBirthProb (self : t) : Q := SimpleVirus.maxBirthProb (base self).
Definition clearProb (self : t) : Q := SimpleVirus.clearProb (base self).
Definition getMaxBirthProb (self : t) : Q := SimpleVirus.getMaxBirthProb (base self).
Definition getClearProb (self : t) : Q := SimpleVirus.getClearProb (base self).
Definition getResistances (self : t) : Dict.t := resistance self.
Definition getMutProb (self : t) : Q := mutProb self.

(** Inherited from [SimpleVirus]. *)
Definition doesClear (self : t) : M bool := SimpleVirus.doesClear (base self).

(** [return self.getResistances().get(drug)] *)
Definition isResistantTo (self : t) (drug : string) : option bool :=
  Dict.get (getResistances self) drug.

(** [for drug in activeDrugs:
       if self.getResistances().get(drug) == False:
         resistant = False; break] *)
Fixpoint resistant_loop (self : t) (activeDrugs : list string) (resistant : bool) : bool :=
  match activeDrugs with
  | [] => resistant
  | drug :: rest =>
      if Dict.eq_False (Dict.get (getResistances self) drug) then false
      else resistant_loop self rest resistant
  end.

(** Body of [for drug in self.resistance.items()]. *)
Definition mutation_step {FA : FloatArith}
           (self : t) (new_res : Dict.t) (drug : string * bool) : M Dict.t :=
  if Bool.eqb (snd drug) true then
    r <- random ;;
    if gt (fsub 1 (mutProb self)) r then ret (Dict.set new_res (fst drug) true)
    else ret (Dict.set new_res (fst drug) false)
  else
    r <- random ;;
    if gt (mutProb self) r then ret (Dict.set new_res (fst drug) true)
    else ret (Dict.set new_res (fst drug) false).

(** [new_res = {}; for drug in self.resistance.items(): ...] *)
Definition mutation_loop {FA : FloatArith} (self : t) : M Dict.t :=
  for_each (resistance self) (mutation_step self) [].

(** [ResistantVirus.reproduce]; the [and] of the test is short-circuit,
    so no draw is made when [resistant] is [False]. *)
Definition reproduce {FA : FloatArith}
           (self : t) (popDensity : Q) (activeDrugs : list string) : M t :=
  let resistant := resistant_loop self activeDrugs true in
  test <-
    (if Bool.eqb resistant true then
       r <- random ;; ret (ge (fmul (maxBirthProb self) (fsub 1 popDensity)) r)
     else ret false) ;;
  if test then
    new_res <- mutation_loop self ;;
    ret (new (getMaxBirthProb self) (getClearProb self) new_res (getMutProb self))
  else raise NoChildException.

End ResistantVirus.

(* ------------------------------------------------------------------ *)
(** ** class TreatedPatient(Patient) *)

Module TreatedPatient.

Record t : Type := new' {
  viruses : list ResistantVirus.t;
  maxPop : Z;
  presDrugs : list string
}.

(** [__init__]: no drug is prescribed initially. *)
Definition new (viruses : list ResistantVirus.t) (maxPop : Z) : t :=
  new' viruses maxPop [].

Definition getViruses (self : t) : list ResistantVirus.t := viruses self.
Definition getMaxPop (self : t) : Z := maxPop self.
Definition getTotalPop (self : t) : nat := length (viruses self).
Definition getPrescriptions (self : t) : list string := presDrugs self.

(** [if newDrug not in self.presDrugs: self.presDrugs.append(newDrug)] *)
Definition addPrescription (self : t) (newDrug : string) : t :=
  if existsb (String.eqb newDrug) (presDrugs self) then self
  else new' (viruses self) (maxPop self) (presDrugs self ++ [newDrug]).

(** Inner loop of [getResistPop]. *)
Fixpoint sub_count (virus : ResistantVirus.t) (drugResist : list string) (acc : nat) : nat :=
  match drugResist with
  | [] => acc
  | drug :: rest =>
      if Dict.eq_True (Dict.get (ResistantVirus.getResistances virus) drug)
      then sub_count virus rest (acc + 1)
      else sub_count virus rest acc
  end.

Definition getResistPop (self : t) (drugResist : list string) : nat :=
  fold_left
    (fun count virus =>
       if Nat.eqb (sub_count virus drugResist 0) (length drugResist)
       then (count + 1)%nat else count)
    (getViruses self) 0%nat.

(** [TreatedPatient.update] *)
Definition update {FA : FloatArith} (self : t) : M (t * nat) :=
  surviving_virus <- survival_loop ResistantVirus.doesClear (getViruses self) ;;
  popDensity <- float_div (length surviving_virus) (getMaxPop self) ;;
  new_virus <-
    reproduction_loop
      (fun virus => ResistantVirus.reproduce virus popDensity (getPrescriptions self))
      surviving_virus ;;
  let self' := new' (new_virus ++ surviving_virus) (maxPop self) (presDrugs self) in
  ret (self', length (viruses self')).

End TreatedPatient.

(* ------------------------------------------------------------------ *)
(** ** The time step as the design document describes it

    A declarative reading of the three phases, against which the two
    [update] methods are compared. *)

Section TimeStepSpec.

Context {FA : FloatArith} {V : Type}.
Variable clears : V -> M bool.
Variable repro : Q -> V -> M V.
Variable rnd : Draws.

(** Survival phase: every current particle is asked [clears] once, in
    turn; exactly those answering false are retained. *)
Inductive survival : list V -> nat -> list V -> nat -> Prop :=
| survival_nil : forall s, survival [] s [] s
| survival_cleared : forall v rest s s1 surv s2,
    clears v rnd s = Normal true s1 ->
    survival rest s1 surv s2 ->
    survival (v :: rest) s surv s2
| survival_kept : forall v rest s s1 surv s2,
    clears v rnd s = Normal false s1 ->
    survival rest s1 surv s2 ->
    survival (v :: rest) s (v :: surv) s2.

(** Reproduction phase at a fixed density [d]: every survivor makes one
    attempt; a success contributes its offspring, a [NoChildException]
    contributes nothing and the phase goes on. *)
Inductive attempts (d : Q) : list V -> nat -> list V -> nat -> Prop :=
| attempts_nil : forall s, attempts d [] s [] s
| attempts_child : forall v rest s s1 child offspring s2,
    repro d v rnd s = Normal child s1 ->
    attempts d rest s1 offspring s2 ->
    attempts d (v :: rest) s (child :: offspring) s2
| attempts_none : forall v rest s s1 offspring s2,
    repro d v rnd s = Raised NoChildException s1 ->
    attempts d rest s1 offspring s2 ->
    attempts d (v :: rest) s offspring s2.

(** One time step from population [pop] at draw position [s]: the
    density is the float quotient of the number of survivors by
    [float(maxPopulation)], a float that is not [0.0]. *)
Definition advanceTimeStep (pop : list V) (maxPopulation : Z) (s : nat)
           (pop' : list V) (total : nat) (s' : nat) : Prop :=
  exists survivors s1 offspring fmax,
    survival pop s survivors s1 /\
    float_of_int maxPopulation = Some fmax /\ ~ fmax == 0 /\
    attempts (fdiv (float_of_len (length survivors)) fmax)
             survivors s1 offspring s' /\
    pop' = offspring ++ survivors /\
    total = length pop'.

End TimeStepSpec.

(** [l1] is [l2] with some elements left out, order kept. *)
Inductive subseq {A : Type} : list A -> list A -> Prop :=
| subseq_nil : subseq [] []
| subseq_skip : forall x l1 l2, subseq l1 l2 -> subseq l1 (x :: l2)
| subseq_keep : forall x l1 l2, subseq l1 l2 -> subseq (x :: l1) (x :: l2).

(** ** Auxiliary definitions for the statements *)

(** [reproduce] with the density as first argument, as the phases of the
    time step take it. *)
Definition basic_repro {FA : FloatArith} (d : Q) (v : SimpleVirus.t) : M SimpleVirus.t :=
  SimpleVirus.reproduce v d.

Definition gated_repro {FA : FloatArith}
           (activeDrugs : list string) (d : Q) (v : ResistantVirus.t)
  : M ResistantVirus.t :=
  ResistantVirus.reproduce v d activeDrugs.

(** The density [update] computes from the survivors and the float
    [fmax] of [maxPop]. *)
Definition popDensity_of {FA : FloatArith} {V} (surviving_virus : list V) (fmax : Q) : Q :=
  fdiv (float_of_len (length surviving_virus)) fmax.

(** The value of [self.maxBirthProb * (1 - popDensity)] as the code
    computes it. *)
Definition birth_probability {FA : FloatArith} (maxBirthProb popDensity : Q) : Q :=
  fmul maxBirthProb (fsub 1 popDensity).

(** [float(maxPop)] does not raise [OverflowError]. *)
Definition converts {FA : FloatArith} (maxPop : Z) : Prop :=
  float_of_int maxPop <> None.

(** ** Concrete inputs *)

(** Concrete draw sequences and particles used in examples. *)
Definition zero_draws : Draws := fun _ => 0.
Definition half_draws : Draws := fun _ => 1 # 2.

(** ResistantVirus(1, 0, {"X": True}, 1) *)
Definition virus_X_resistant : ResistantVirus.t :=
  ResistantVirus.new 1 0 [("X"%string, true)] 1.

(** ResistantVirus(1, 0, {}, 0): a particle with no resistance entry. *)
Definition virus_no_entry : ResistantVirus.t := ResistantVirus.new 1 0 [] 0.

(** Hosts used in examples. *)
Definition patient_ex : Patient.t :=
  Patient.new [SimpleVirus.new 1 0; SimpleVirus.new 1 1] 4.

Definition treated_ex : TreatedPatient.t :=
  TreatedPatient.new'
    [virus_X_resistant; ResistantVirus.new 1 0 [("X"%string, false)] 0; virus_no_entry]
    4 ["X"%string].

(** ** Readings of the resistance code used in further statements *)

(** The trait [reproduce] gives an offspring for a parent trait [b] when
    the draw is [r]: the two branches of the mutation loop. *)
Definition offspring_trait {FA : FloatArith}
           (v : ResistantVirus.t) (b : bool) (r : Q) : bool :=
  if b then gt (fsub 1 (ResistantVirus.mutProb v)) r
  else gt (ResistantVirus.mutProb v) r.

(** The items of an offspring's dictionary when the first mutation draw
    is at position [s]: item [i] is decided by draw [s + i]. *)
Fixpoint mutated {FA : FloatArith}
         (v : ResistantVirus.t) (items : Dict.t) (rnd : Draws) (s : nat) : Dict.t :=
  match items with
  | [] => []
  | (k, b) :: rest => (k, offspring_trait v b (rnd s)) :: mutated v rest rnd (S s)
  end.

(** The particle has an explicit [True] entry for every listed drug. *)
Definition resistant_to_all (v : ResistantVirus.t) (drugResist : list string) : bool :=
  forallb (fun drug => Dict.eq_True (ResistantVirus.isResistantTo v drug)) drugResist.

(** Draws strictly between 0 and 1. *)
Definition positive_draws (rnd : Draws) : Prop :=
  forall i : nat, 0 < rnd i /\ rnd i < 1.

(* ------------------------------------------------------------------ *)
(** ** The simulation drivers

    [simulationWithoutDrug] and [simulationWithDrug] up to the series
    they hand to [pylab.plot]; printing and plotting are left out. *)

(** [for _ in range(steps):
       patient.update()
       virus_count.append(patient.getTotalPop())] *)
Fixpoint Patient_trial {FA : FloatArith}
         (steps : nat) (patient : Patient.t) (virus_count : list nat)
  : M (Patient.t * list nat) :=
  match steps with
  | O => ret (patient, virus_count)
  | S k =>
      r <- Patient.update patient ;;
      let patient' := fst r in
      Patient_trial k patient' (virus_count ++ [Patient.getTotalPop patient'])
  end.

(** [for i in range(numTrials):
       virus_count = []; ...; results[i] = virus_count]
    with the one [patient] created before the loop. *)
Fixpoint Patient_trials {FA : FloatArith} (steps numTrials : nat) (patient : Patient.t)
         (results : list (list nat)) : M (Patient.t * list (list nat)) :=
  match numTrials with
  | O => ret (patient, results)
  | S k =>
      r <- Patient_trial steps patient [] ;;
      Patient_trials steps k (fst r) (results ++ [snd r])
  end.




(** [if j == 50: for item in resistances.keys(): patient.addPrescription(item)] *)
Definition prescribe_at_50 (resistances : Dict.t) (j : nat) (patient : TreatedPatient.t)
  : TreatedPatient.t :=
  if Nat.eqb j 50 then fold_left TreatedPatient.addPrescription (Dict.keys resistances) patient
  else patient.

(** The loop [for j in range(steps)] of [simulationWithDrug], from step
    [j] with [todo] steps left. *)
Fixpoint TreatedPatient_trial {FA : FloatArith} (resistances : Dict.t) (todo j : nat)
         (patient : TreatedPatient.t) (virus_count res_virus : list nat)
  : M (TreatedPatient.t * (list nat * list nat)) :=
  match todo with
  | O => ret (patient, (virus_count, res_virus))
  | S k =>
      let patient1 := prescribe_at_50 resistances j patient in
      r <- TreatedPatient.update patient1 ;;
      let patient2 := fst r in
      TreatedPatient_trial resistances k (S j) patient2
        (virus_count ++ [TreatedPatient.getTotalPop patient2])
        (res_virus ++ [TreatedPatient.getResistPop patient2 (Dict.keys resistances)])
  end.




(** A treated host seen as a [Patient]: every particle reduced to the
    fields it has as a [SimpleVirus], the prescriptions dropped. *)
Definition as_Patient (p : TreatedPatient.t) : Patient.t :=
  Patient.new (map ResistantVirus.base (TreatedPatient.viruses p)) (TreatedPatient.maxPop p).

(* ------------------------------------------------------------------ *)
(** ** Arithmetic for the concrete runs

    Arithmetic without rounding error, with the overflow bound of
    [float(n)]: it gives what double arithmetic gives whenever the exact
    result is itself a double, which is the case in every concrete run
    of this file (their numbers are small multiples of powers of 2). *)
Definition exact_arith : FloatArith := {|
  fsub := Qminus;
  fmul := Qmult;
  fdiv := Qdiv;
  float_of_int := fun z =>
    if (Z.abs z <? 2 ^ 1024 - 2 ^ 970)%Z then Some (inject_Z z) else None;
  float_of_len := fun n => inject_Z (Z.of_nat n)
|}.

(* ------------------------------------------------------------------ *)
(** * Properties *)

Section Theory.

Context {FA : FloatArith} {FL : FloatLaws FA}.

(** ** Running the monad *)

Lemma bind_Normal {A B} {m : M A} (k : A -> M B) {rnd s a s1} :
  m rnd s = Normal a s1 -> bind m k rnd s = k a rnd s1.
Proof. intros H; unfold bind; now rewrite H. Qed.

Lemma bind_Raised {A B} {m : M A} (k : A -> M B) {rnd s e s1} :
  m rnd s = Raised e s1 -> bind m k rnd s = Raised e s1.
Proof. intros H; unfold bind; now rewrite H. Qed.

Lemma for_each_cons {A X} (x : X) rest (body : A -> X -> M A) acc rnd s :
  for_each (x :: rest) body acc rnd s =
  match body acc x rnd s with
  | Normal acc' s1 => for_each rest body acc' rnd s1
  | Raised e s1 => Raised e s1
  end.
Proof. reflexivity. Qed.

(** ** Comparisons on floats *)

Lemma ge_true a b : ge a b = true <-> b <= a.
Proof. unfold ge; apply Qle_bool_iff. Qed.

Lemma ge_false a b : ge a b = false <-> a < b.
Proof.
  unfold ge; split; intros H.
  - apply Qnot_le_lt; intros Hle; apply Qle_bool_iff in Hle; congruence.
  - destruct (Qle_bool b a) eqn:E; [|reflexivity].
    apply Qle_bool_iff in E. exfalso. exact (Qlt_not_le _ _ H E).
Qed.

Lemma gt_true a b : gt a b = true <-> b < a.
Proof.
  unfold gt; rewrite negb_true_iff. apply (ge_false b a).
Qed.

Lemma gt_false a b : gt a b = false <-> a <= b.
Proof.
  unfold gt; rewrite negb_false_iff. apply (ge_true b a).
Qed.

(** ** The two divisions *)

Lemma Qeq_bool_false (x y : Q) : ~ x == y -> Qeq_bool x y = false.
Proof.
  intros H. destruct (Qeq_bool x y) eqn:E; [|reflexivity].
  apply Qeq_bool_iff in E. contradiction.
Qed.

Lemma float_div_Some (n : nat) (d : Z) fd rnd s :
  float_of_int d = Some fd -> ~ fd == 0 ->
  float_div n d rnd s = Normal (fdiv (float_of_len n) fd) s.
Proof.
  intros Hf Hz. unfold float_div. rewrite Hf, (Qeq_bool_false _ _ Hz). reflexivity.
Qed.

Lemma float_div_zero (n : nat) (d : Z) fd rnd s :
  float_of_int d = Some fd -> fd == 0 ->
  float_div n d rnd s = Raised ZeroDivisionError s.
Proof.
  intros Hf Hz. unfold float_div. rewrite Hf.
  apply Qeq_bool_iff in Hz. rewrite Hz. reflexivity.
Qed.

Lemma float_div_overflow (n : nat) (d : Z) rnd s :
  float_of_int d = None -> float_div n d rnd s = Raised OverflowError s.
Proof. intros Hf. unfold float_div. rewrite Hf. reflexivity. Qed.

Lemma float_div_inv (n : nat) (d : Z) rnd s q s' :
  float_div n d rnd s = Normal q s' ->
  exists fd, float_of_int d = Some fd /\ ~ fd == 0 /\
             q = fdiv (float_of_len n) fd /\ s' = s.
Proof.
  unfold float_div. destruct (float_of_int d) as [fd|]; [|discriminate].
  destruct (Qeq_bool fd 0) eqn:E; [discriminate|].
  intros H. injection H as <- <-. exists fd.
  repeat split. intros Hz. apply Qeq_bool_iff in Hz. congruence.
Qed.

(** An integer that converts and is not zero gives a divisor that is not
    [0.0]. *)
Lemma converts_nonzero (z : Z) :
  z <> 0%Z -> converts z -> exists f, float_of_int z = Some f /\ ~ f == 0.
Proof.
  intros Hz Hc. unfold converts in Hc.
  destruct (float_of_int z) as [f|] eqn:E; [|contradiction].
  exists f. split; [reflexivity|]. intros H0.
  apply Hz. exact (float_of_int_nonzero z f E H0).
Qed.

Lemma nonzero_converts (z : Z) f :
  float_of_int z = Some f -> ~ f == 0 -> z <> 0%Z /\ converts z.
Proof.
  intros E Hf. split.
  - intros ->. destruct float_of_int_0 as (f0 & E0 & H0).
    rewrite E in E0. injection E0 as <-. contradiction.
  - unfold converts. rewrite E. discriminate.
Qed.

(** ** The two loops *)

Section LoopFacts.

Context {V : Type}.
Variable clears : V -> M bool.
Variable repro : V -> M V.
Variable rnd : Draws.

(** [doesClear] returns a boolean and never raises. *)
Hypothesis clears_total :
  forall v s, exists b s1, clears v rnd s = Normal b s1.

(** [reproduce] returns an offspring or raises [NoChildException]. *)
Hypothesis repro_total :
  forall v s,
    (exists child s1, repro v rnd s = Normal child s1) \/
    (exists s1, repro v rnd s = Raised NoChildException s1).

Lemma survival_step_eq acc {v s b s1} :
  clears v rnd s = Normal b s1 ->
  survival_step clears acc v rnd s =
  Normal (if b then acc else acc ++ [v]) s1.
Proof.
  intros Hb. unfold survival_step. rewrite (bind_Normal _ Hb).
  now destruct b.
Qed.

Lemma reproduction_step_child acc {v s child s1} :
  repro v rnd s = Normal child s1 ->
  reproduction_step repro acc v rnd s = Normal (acc ++ [child]) s1.
Proof.
  intros Hc. unfold reproduction_step, try_except_NoChild.
  now rewrite (bind_Normal _ Hc).
Qed.

Lemma reproduction_step_none acc {v s s1} :
  repro v rnd s = Raised NoChildException s1 ->
  reproduction_step repro acc v rnd s = Normal acc s1.
Proof.
  intros Hc. unfold reproduction_step, try_except_NoChild.
  now rewrite (bind_Raised _ Hc).
Qed.

Lemma survival_loop_acc vs : forall acc s,
  exists surv s1,
    for_each vs (survival_step clears) [] rnd s = Normal surv s1 /\
    for_each vs (survival_step clears) acc rnd s = Normal (acc ++ surv) s1.
Proof.
  induction vs as [|v rest IH]; intros acc s.
  - exists [], s. cbn. rewrite app_nil_r. split; reflexivity.
  - destruct (clears_total v s) as (b & s1 & Hb).
    rewrite !for_each_cons, !(survival_step_eq _ Hb).
    destruct b.
    + apply IH.
    + destruct (IH ([] ++ [v]) s1) as (l1 & t1 & E0 & E1).
      destruct (IH (acc ++ [v]) s1) as (l2 & t2 & F0 & F1).
      rewrite E0 in F0. injection F0 as <- <-.
      exists (v :: l1), t1. split; [exact E1|].
      rewrite F1. now rewrite <- app_assoc.
Qed.

Lemma survival_loop_total vs s :
  exists surv s1, survival_loop clears vs rnd s = Normal surv s1.
Proof.
  destruct (survival_loop_acc vs [] s) as (surv & s1 & H & _).
  now exists surv, s1.
Qed.

Lemma survival_loop_cons {v} rest {s b s1} :
  clears v rnd s = Normal b s1 ->
  survival_loop clears (v :: rest) rnd s =
  match survival_loop clears rest rnd s1 with
  | Normal surv s2 => Normal (if b then surv else v :: surv) s2
  | Raised e s2 => Raised e s2
  end.
Proof.
  intros Hb. unfold survival_loop.
  rewrite for_each_cons, (survival_step_eq _ Hb).
  destruct (survival_loop_acc rest ([] ++ [v]) s1) as (l & t & E0 & E1).
  destruct b.
  - now rewrite E0.
  - now rewrite E1, E0.
Qed.

Lemma reproduction_loop_acc vs : forall acc s,
  exists offspring s1,
    for_each vs (reproduction_step repro) [] rnd s = Normal offspring s1 /\
    for_each vs (reproduction_step repro) acc rnd s = Normal (acc ++ offspring) s1.
Proof.
  induction vs as [|v rest IH]; intros acc s.
  - exists [], s. cbn. rewrite app_nil_r. split; reflexivity.
  - rewrite !for_each_cons.
    destruct (repro_total v s) as [(c & s1 & Hc) | (s1 & Hc)].
    + rewrite !(reproduction_step_child _ Hc).
      destruct (IH ([] ++ [c]) s1) as (l1 & t1 & E0 & E1).
      destruct (IH (acc ++ [c]) s1) as (l2 & t2 & F0 & F1).
      rewrite E0 in F0. injection F0 as <- <-.
      exists (c :: l1), t1. split; [exact E1|].
      rewrite F1. now rewrite <- app_assoc.
    + rewrite !(reproduction_step_none _ Hc). apply IH.
Qed.

Lemma reproduction_loop_total vs s :
  exists offspring s1, reproduction_loop repro vs rnd s = Normal offspring s1.
Proof.
  destruct (reproduction_loop_acc vs [] s) as (l & s1 & H & _).
  now exists l, s1.
Qed.

Lemma reproduction_loop_child {v} rest {s child s1} :
  repro v rnd s = Normal child s1 ->
  reproduction_loop repro (v :: rest) rnd s =
  match reproduction_loop repro rest rnd s1 with
  | Normal offspring s2 => Normal (child :: offspring) s2
  | Raised e s2 => Raised e s2
  end.
Proof.
  intros Hc. unfold reproduction_loop.
  rewrite for_each_cons, (reproduction_step_child _ Hc).
  destruct (reproduction_loop_acc rest ([] ++ [child]) s1) as (l & t & E0 & E1).
  now rewrite E1, E0.
Qed.

(** A failed attempt leaves the accumulated offspring as they are and
    the loop goes on with the next survivor. *)
Lemma reproduction_step_skip {v} rest acc {s s1} :
  repro v rnd s = Raised NoChildException s1 ->
  for_each (v :: rest) (reproduction_step repro) acc rnd s =
  for_each rest (reproduction_step repro) acc rnd s1.
Proof.
  intros Hc. now rewrite for_each_cons, (reproduction_step_none _ Hc).
Qed.

Lemma reproduction_loop_length vs : forall s offspring s1,
  reproduction_loop repro vs rnd s = Normal offspring s1 ->
  (length offspring <= length vs)%nat.
Proof.
  induction vs as [|v rest IH]; intros s offspring s1 H.
  - cbn in H. injection H as <- <-. cbn. lia.
  - destruct (repro_total v s) as [(c & t & Hc) | (t & Hc)].
    + rewrite (reproduction_loop_child _ Hc) in H.
      destruct (reproduction_loop repro rest rnd t) as [l t'|] eqn:E; [|discriminate].
      injection H as <- <-. apply IH in E. cbn. lia.
    + unfold reproduction_loop in H.
      rewrite (reproduction_step_skip _ _ Hc) in H.
      apply IH in H. cbn. lia.
Qed.

Lemma survival_loop_subseq vs : forall s surv s1,
  survival_loop clears vs rnd s = Normal surv s1 -> subseq surv vs.
Proof.
  induction vs as [|v rest IH]; intros s surv s1 H.
  - cbn in H. injection H as <- <-. constructor.
  - destruct (clears_total v s) as (b & t & Hb).
    rewrite (survival_loop_cons _ Hb) in H.
    destruct (survival_loop clears rest rnd t) as [l t'|] eqn:E; [|discriminate].
    injection H as <- <-. apply IH in E.
    destruct b; now constructor.
Qed.

End LoopFacts.

(** ** The loops against the declarative phases *)

Section LoopsRefine.

Context {V : Type}.
Variable clears : V -> M bool.
Variable repro : Q -> V -> M V.
Variable rnd : Draws.

Hypothesis clears_total :
  forall v s, exists b s1, clears v rnd s = Normal b s1.

Hypothesis repro_total :
  forall d v s,
    (exists child s1, repro d v rnd s = Normal child s1) \/
    (exists s1, repro d v rnd s = Raised NoChildException s1).

Lemma survival_loop_refines vs : forall s surv s1,
  survival_loop clears vs rnd s = Normal surv s1 ->
  survival clears rnd vs s surv s1.
Proof.
  induction vs as [|v rest IH]; intros s surv s1 H.
  - cbn in H. injection H as <- <-. constructor.
  - destruct (clears_total v s) as (b & t & Hb).
    rewrite (survival_loop_cons clears rnd clears_total rest Hb) in H.
    destruct (survival_loop clears rest rnd t) as [l t'|] eqn:E; [|discriminate].
    injection H as <- <-. apply IH in E.
    destruct b; [eapply survival_cleared | eapply survival_kept]; eassumption.
Qed.

Lemma reproduction_loop_refines d vs : forall s offspring s1,
  reproduction_loop (repro d) vs rnd s = Normal offspring s1 ->
  attempts repro rnd d vs s offspring s1.
Proof.
  induction vs as [|v rest IH]; intros s offspring s1 H.
  - cbn in H. injection H as <- <-. constructor.
  - destruct (repro_total d v s) as [(c & t & Hc) | (t & Hc)].
    + rewrite (reproduction_loop_child (repro d) rnd (repro_total d) rest Hc) in H.
      destruct (reproduction_loop (repro d) rest rnd t) as [l t'|] eqn:E; [|discriminate].
      injection H as <- <-. apply IH in E.
      eapply attempts_child; eassumption.
    + unfold reproduction_loop in H.
      rewrite (reproduction_step_skip (repro d) rnd rest [] Hc) in H.
      apply IH in H. eapply attempts_none; eassumption.
Qed.

(** The body shared by the two [update] methods, up to what is done
    with the two lists: when [float(maxPop)] is a float other than [0.0]
    it runs the survival loop, then the reproduction loop at the density
    of the survivors, and both loops return normally. *)
Lemma update_body {B} (k : list V -> list V -> M B) vs (maxPop : Z) fmax s :
  float_of_int maxPop = Some fmax -> ~ fmax == 0 ->
  exists surv s1 offspring s2,
    survival_loop clears vs rnd s = Normal surv s1 /\
    reproduction_loop (repro (popDensity_of surv fmax)) surv rnd s1
    = Normal offspring s2 /\
    (surviving_virus <- survival_loop clears vs ;;
     popDensity <- float_div (length surviving_virus) maxPop ;;
     new_virus <- reproduction_loop (repro popDensity) surviving_virus ;;
     k new_virus surviving_virus) rnd s
    = k offspring surv rnd s2.
Proof.
  intros Hf Hz.
  destruct (survival_loop_total clears rnd clears_total vs s) as (surv & s1 & Hs).
  destruct (reproduction_loop_total (repro (popDensity_of surv fmax)) rnd
              (repro_total (popDensity_of surv fmax)) surv s1)
    as (off & s2 & Hr).
  exists surv, s1, off, s2. repeat split; try assumption.
  rewrite (bind_Normal _ Hs).
  rewrite (bind_Normal _ (float_div_Some (length surv) maxPop fmax rnd s1 Hf Hz)).
  fold (popDensity_of surv fmax).
  now rewrite (bind_Normal _ Hr).
Qed.

(** When [float(maxPop)] raises, or is [0.0], the density computation
    raises after the survival loop and before any reproduction. *)
Lemma update_body_error {B} (k : list V -> list V -> M B) vs (maxPop : Z) s :
  exists surv s1,
    survival_loop clears vs rnd s = Normal surv s1 /\
    (float_of_int maxPop = None ->
     (surviving_virus <- survival_loop clears vs ;;
      popDensity <- float_div (length surviving_virus) maxPop ;;
      new_virus <- reproduction_loop (repro popDensity) surviving_virus ;;
      k new_virus surviving_virus) rnd s
     = Raised OverflowError s1) /\
    (forall fmax, float_of_int maxPop = Some fmax -> fmax == 0 ->
     (surviving_virus <- survival_loop clears vs ;;
      popDensity <- float_div (length surviving_virus) maxPop ;;
      new_virus <- reproduction_loop (repro popDensity) surviving_virus ;;
      k new_virus surviving_virus) rnd s
     = Raised ZeroDivisionError s1).
Proof.
  destruct (survival_loop_total clears rnd clears_total vs s) as (surv & s1 & Hs).
  exists surv, s1. split; [assumption|]. split.
  - intros Hf. rewrite (bind_Normal _ Hs).
    now rewrite (bind_Raised _ (float_div_overflow (length surv) maxPop rnd s1 Hf)).
  - intros fmax Hf Hz. rewrite (bind_Normal _ Hs).
    now rewrite (bind_Raised _ (float_div_zero (length surv) maxPop fmax rnd s1 Hf Hz)).
Qed.

(** A normal return of the body tells that [float(maxPop)] is a float
    other than [0.0], and that the two loops ran. *)
Lemma update_body_inv {B} (k : list V -> list V -> M B) vs (maxPop : Z) s r s' :
  (surviving_virus <- survival_loop clears vs ;;
   popDensity <- float_div (length surviving_virus) maxPop ;;
   new_virus <- reproduction_loop (repro popDensity) surviving_virus ;;
   k new_virus surviving_virus) rnd s
  = Normal r s' ->
  exists fmax surv s1 offspring s2,
    float_of_int maxPop = Some fmax /\ ~ fmax == 0 /\
    survival_loop clears vs rnd s = Normal surv s1 /\
    reproduction_loop (repro (popDensity_of surv fmax)) surv rnd s1
    = Normal offspring s2 /\
    k offspring surv rnd s2 = Normal r s'.
Proof.
  intros H.
  destruct (float_of_int maxPop) as [fmax|] eqn:Hf.
  - destruct (Qeq_dec fmax 0) as [Hz|Hz].
    + destruct (update_body_error k vs maxPop s) as (surv & s1 & _ & _ & E).
      rewrite (E fmax Hf Hz) in H. discriminate.
    + destruct (update_body k vs maxPop fmax s Hf Hz)
        as (surv & s1 & off & s2 & Hs & Hr & E).
      rewrite E in H. exists fmax, surv, s1, off, s2. repeat split; assumption.
  - destruct (update_body_error k vs maxPop s) as (surv & s1 & _ & E & _).
    rewrite (E Hf) in H. discriminate.
Qed.

End LoopsRefine.

(** ** The declarative phases determine their result *)

Section PhasesFunctional.

Context {V : Type}.
Variable clears : V -> M bool.
Variable repro : Q -> V -> M V.
Variable rnd : Draws.

(** Two runs of the same call from the same position agree. *)
Ltac same_call :=
  match goal with
  | H1 : ?call = _, H2 : ?call = _ |- _ =>
      rewrite H1 in H2; try discriminate H2; inversion H2; subst; clear H2
  end.

Lemma survival_functional {pop s surv s1} :
  survival clears rnd pop s surv s1 ->
  forall surv' s1', survival clears rnd pop s surv' s1' ->
  surv' = surv /\ s1' = s1.
Proof.
  induction 1 as [s | v rest s t surv s2 Hc _ IH | v rest s t surv s2 Hc _ IH];
    intros surv' s1' H'; inversion H'; subst; try same_call.
  - split; reflexivity.
  - now apply IH.
  - match goal with
    | H : survival _ _ rest _ _ _ |- _ => destruct (IH _ _ H) as [-> ->]
    end.
    split; reflexivity.
Qed.

Lemma attempts_functional {d surv s offspring s1} :
  attempts repro rnd d surv s offspring s1 ->
  forall offspring' s1', attempts repro rnd d surv s offspring' s1' ->
  offspring' = offspring /\ s1' = s1.
Proof.
  induction 1 as [s | v rest s t child off s2 Hc _ IH | v rest s t off s2 Hc _ IH];
    intros off' s1' H'; inversion H'; subst; try same_call.
  - split; reflexivity.
  - match goal with
    | H : attempts _ _ _ rest _ _ _ |- _ => destruct (IH _ _ H) as [-> ->]
    end.
    split; reflexivity.
  - now apply IH.
Qed.

Lemma advanceTimeStep_functional {pop maxPopulation s pop1 n1 s1 pop2 n2 s2} :
  advanceTimeStep clears repro rnd pop maxPopulation s pop1 n1 s1 ->
  advanceTimeStep clears repro rnd pop maxPopulation s pop2 n2 s2 ->
  pop2 = pop1 /\ n2 = n1 /\ s2 = s1.
Proof.
  intros (sv1 & t1 & off1 & f1 & Hs1 & Hf1 & _ & Ha1 & -> & ->)
         (sv2 & t2 & off2 & f2 & Hs2 & Hf2 & _ & Ha2 & -> & ->).
  rewrite Hf1 in Hf2. injection Hf2 as <-.
  destruct (survival_functional Hs1 _ _ Hs2) as [-> ->].
  destruct (attempts_functional Ha1 _ _ Ha2) as [-> ->].
  repeat split; reflexivity.
Qed.

End PhasesFunctional.

(** ** Facts about the particle methods *)

Lemma doesClear_eq (v : SimpleVirus.t) rnd s :
  SimpleVirus.doesClear v rnd s =
  Normal (ge (SimpleVirus.clearProb v) (rnd s)) (S s).
Proof.
  unfold SimpleVirus.doesClear, bind, random, SimpleVirus.getClearProb.
  now destruct (ge _ _).
Qed.

Lemma reproduce_eq (v : SimpleVirus.t) d rnd s :
  SimpleVirus.reproduce v d rnd s =
  if ge (birth_probability (SimpleVirus.maxBirthProb v) d) (rnd s)
  then Normal (SimpleVirus.new (SimpleVirus.maxBirthProb v) (SimpleVirus.clearProb v)) (S s)
  else Raised NoChildException (S s).
Proof.
  unfold SimpleVirus.reproduce, bind, random.
  now destruct (ge _ _).
Qed.

Lemma SimpleVirus_doesClear_total rnd (v : SimpleVirus.t) s :
  exists b s1, SimpleVirus.doesClear v rnd s = Normal b s1.
Proof. rewrite doesClear_eq. eauto. Qed.

Lemma SimpleVirus_reproduce_total rnd d (v : SimpleVirus.t) s :
  (exists child s1, SimpleVirus.reproduce v d rnd s = Normal child s1) \/
  (exists s1, SimpleVirus.reproduce v d rnd s = Raised NoChildException s1).
Proof. rewrite reproduce_eq. destruct (ge _ _); eauto. Qed.

Lemma ResistantVirus_doesClear_total rnd (v : ResistantVirus.t) s :
  exists b s1, ResistantVirus.doesClear v rnd s = Normal b s1.
Proof. apply SimpleVirus_doesClear_total. Qed.

Lemma mutation_step_total rnd v new_res item s :
  exists new_res', ResistantVirus.mutation_step v new_res item rnd s = Normal new_res' (S s).
Proof.
  unfold ResistantVirus.mutation_step.
  destruct (Bool.eqb _ _); cbv [bind random]; destruct (gt _ _); cbv [ret]; eauto.
Qed.

Lemma mutation_loop_from_total rnd v items : forall acc s,
  exists new_res,
    for_each items (ResistantVirus.mutation_step v) acc rnd s
    = Normal new_res (s + length items).
Proof.
  induction items as [|it rest IH]; intros acc s.
  - exists acc. cbn. now rewrite Nat.add_0_r.
  - rewrite for_each_cons.
    destruct (mutation_step_total rnd v acc it s) as (acc' & E). rewrite E.
    destruct (IH acc' (S s)) as (r & Hr). exists r. rewrite Hr.
    cbn [length]. f_equal. lia.
Qed.

Lemma ResistantVirus_reproduce_eq (v : ResistantVirus.t) d drugs rnd s :
  ResistantVirus.reproduce v d drugs rnd s =
  if ResistantVirus.resistant_loop v drugs true then
    if ge (birth_probability (ResistantVirus.maxBirthProb v) d) (rnd s) then
      match ResistantVirus.mutation_loop v rnd (S s) with
      | Normal new_res s1 =>
          Normal (ResistantVirus.new (ResistantVirus.maxBirthProb v)
                    (ResistantVirus.clearProb v) new_res
                    (ResistantVirus.mutProb v)) s1
      | Raised e s1 => Raised e s1
      end
    else Raised NoChildException (S s)
  else Raised NoChildException s.
Proof.
  unfold ResistantVirus.reproduce.
  destruct (ResistantVirus.resistant_loop v drugs true);
    cbv [Bool.eqb bind random ret raise]; [|reflexivity].
  destruct (ge _ _); reflexivity.
Qed.

Lemma ResistantVirus_reproduce_total rnd drugs d (v : ResistantVirus.t) s :
  (exists child s1, ResistantVirus.reproduce v d drugs rnd s = Normal child s1) \/
  (exists s1, ResistantVirus.reproduce v d drugs rnd s = Raised NoChildException s1).
Proof.
  rewrite ResistantVirus_reproduce_eq.
  destruct (ResistantVirus.resistant_loop v drugs true); [|eauto].
  destruct (ge _ _); [|eauto].
  unfold ResistantVirus.mutation_loop.
  destruct (mutation_loop_from_total rnd v (ResistantVirus.resistance v) [] (S s))
    as (r & Hr).
  rewrite Hr. eauto.
Qed.

(** ** Dictionaries *)

Lemma Dict_get_None d k : ~ In k (Dict.keys d) <-> Dict.get d k = None.
Proof.
  induction d as [|[k' v] rest IH]; cbn.
  - tauto.
  - destruct (String.eqb_spec k' k) as [->|Hne].
    + split; [tauto | discriminate].
    + rewrite <- IH. tauto.
Qed.

Lemma Dict_set_fresh d k v :
  ~ In k (Dict.keys d) -> Dict.set d k v = d ++ [(k, v)].
Proof.
  induction d as [|[k' v'] rest IH]; cbn; intros Hk.
  - reflexivity.
  - destruct (String.eqb_spec k' k) as [->|Hne].
    + tauto.
    + f_equal. apply IH. tauto.
Qed.

Lemma Dict_get_map (f : bool -> bool) d k :
  Dict.get (map (fun it => (fst it, f (snd it))) d) k
  = option_map f (Dict.get d k).
Proof.
  induction d as [|[k' v] rest IH]; cbn.
  - reflexivity.
  - destruct (String.eqb k' k); [reflexivity | exact IH].
Qed.

Lemma Dict_keys_map (f : bool -> bool) d :
  Dict.keys (map (fun it => (fst it, f (snd it))) d) = Dict.keys d.
Proof.
  unfold Dict.keys. rewrite map_map. reflexivity.
Qed.

(** ** The mutation loop when [mutProb] is 1 *)

Section MutationOne.

Variable rnd : Draws.
Variable v : ResistantVirus.t.
Hypothesis draws_ok : unit_draws rnd.
Hypothesis mut_one : ResistantVirus.mutProb v == 1.

Lemma mutation_step_one new_res k b s :
  ResistantVirus.mutation_step v new_res (k, b) rnd s
  = Normal (Dict.set new_res k (negb b)) (S s).
Proof.
  destruct (draws_ok s) as [Hlo Hhi].
  unfold ResistantVirus.mutation_step. cbn [fst snd].
  destruct b; cbv [Bool.eqb bind random].
  - assert (E : gt (fsub 1 (ResistantVirus.mutProb v)) (rnd s) = false).
    { apply gt_false.
      rewrite (fsub_same 1 (ResistantVirus.mutProb v) (Qeq_sym _ _ mut_one)).
      exact Hlo. }
    now rewrite E.
  - assert (E : gt (ResistantVirus.mutProb v) (rnd s) = true).
    { apply gt_true. rewrite mut_one. exact Hhi. }
    now rewrite E.
Qed.

Lemma mutation_loop_one_from items : forall acc s,
  NoDup (Dict.keys acc ++ Dict.keys items) ->
  for_each items (ResistantVirus.mutation_step v) acc rnd s
  = Normal (acc ++ map (fun it => (fst it, negb (snd it))) items)
           (s + length items).
Proof.
  induction items as [|[k b] rest IH]; intros acc s Hnd.
  - cbn. now rewrite app_nil_r, Nat.add_0_r.
  - rewrite for_each_cons, mutation_step_one.
    cbn [Dict.keys map fst] in Hnd.
    assert (Hk : ~ In k (Dict.keys acc)).
    { apply NoDup_remove_2 in Hnd. intros Hin. apply Hnd.
      apply in_or_app. now left. }
    rewrite (Dict_set_fresh acc k (negb b) Hk).
    rewrite IH.
    + cbn [map length fst snd]. rewrite <- app_assoc. cbn [app].
      f_equal. lia.
    + unfold Dict.keys in *. rewrite map_app, <- app_assoc. exact Hnd.
Qed.

Lemma mutation_loop_one s :
  Dict.wf (ResistantVirus.resistance v) ->
  ResistantVirus.mutation_loop v rnd s
  = Normal (map (fun it => (fst it, negb (snd it))) (ResistantVirus.resistance v))
           (s + length (ResistantVirus.resistance v)).
Proof.
  intros Hwf. unfold ResistantVirus.mutation_loop.
  now rewrite mutation_loop_one_from.
Qed.

End MutationOne.

(* ------------------------------------------------------------------ *)
(** * The claims *)

Lemma zero_draws_unit : unit_draws zero_draws.
Proof. intros i. unfold zero_draws. split; lra. Defined.

Lemma half_draws_unit : unit_draws half_draws.
Proof. intros i. unfold half_draws. split; lra. Defined.

(** ** C1: offspring resistances when [mutProb] is 1 *)

(** C1 (amended): for a particle with mutProb = 1 whose resistance map
    has distinct keys, and draws in [0,1), a successful reproduce gives an
    offspring with the same drug keys whose state for every key is the
    negation of the parent's state: resistant where the parent was not,
    not resistant where the parent was. *)
Theorem mutProb_one_offspring_negates_parent
        (rnd : Draws) (v : ResistantVirus.t) (popDensity : Q)
        (activeDrugs : list string) (s : nat)
        (child : ResistantVirus.t) (s' : nat) :
  unit_draws rnd ->
  Dict.wf (ResistantVirus.resistance v) ->
  ResistantVirus.mutProb v == 1 ->
  ResistantVirus.reproduce v popDensity activeDrugs rnd s = Normal child s' ->
  Dict.keys (ResistantVirus.resistance child) = Dict.keys (ResistantVirus.resistance v) /\
  forall k b,
    ResistantVirus.isResistantTo v k = Some b ->
    ResistantVirus.isResistantTo child k = Some (negb b).
Proof.
  intros Hd Hwf Hm H.
  rewrite ResistantVirus_reproduce_eq in H.
  destruct (ResistantVirus.resistant_loop v activeDrugs true); [|discriminate].
  destruct (ge _ _); [|discriminate].
  rewrite (mutation_loop_one rnd v Hd Hm (S s) Hwf) in H.
  injection H as <- <-.
  unfold ResistantVirus.isResistantTo, ResistantVirus.getResistances.
  cbn [ResistantVirus.resistance ResistantVirus.new].
  split.
  - apply Dict_keys_map.
  - intros k b Hk. rewrite Dict_get_map, Hk. reflexivity.
Qed.

(** ** C2, C9: the resistance gate of [ResistantVirus.reproduce] *)

(** The flag computed by the gate loop is [False] exactly when some
    active drug has an explicit [False] entry in the resistance map. *)
Lemma resistant_loop_false_iff (v : ResistantVirus.t) (activeDrugs : list string) :
  ResistantVirus.resistant_loop v activeDrugs true = false <->
  exists d, In d activeDrugs /\ ResistantVirus.isResistantTo v d = Some false.
Proof.
  unfold ResistantVirus.isResistantTo.
  induction activeDrugs as [|d rest IH]; cbn [ResistantVirus.resistant_loop].
  - split; [discriminate | intros (d & [] & _)].
  - destruct (Dict.get (ResistantVirus.getResistances v) d) as [[|]|] eqn:E;
      cbn [Dict.eq_False].
    + rewrite IH. split.
      * intros (d' & Hin & Hd'). exists d'. split; [now right | assumption].
      * intros (d' & [<-|Hin] & Hd'); [congruence | now exists d'].
    + split; [|reflexivity]. intros _. exists d. split; [now left | assumption].
    + rewrite IH. split.
      * intros (d' & Hin & Hd'). exists d'. split; [now right | assumption].
      * intros (d' & [<-|Hin] & Hd'); [congruence | now exists d'].
Qed.


(** With no active drug the flag stays [True]. *)
Lemma resistant_loop_no_drug (v : ResistantVirus.t) :
  ResistantVirus.resistant_loop v [] true = true.
Proof. reflexivity. Qed.

(** A drug that is not a key of the map is skipped by the gate loop. *)
Lemma resistant_loop_remove (v : ResistantVirus.t) d activeDrugs :
  ~ In d (Dict.keys (ResistantVirus.resistance v)) ->
  ResistantVirus.resistant_loop v activeDrugs true
  = ResistantVirus.resistant_loop v (remove string_dec d activeDrugs) true.
Proof.
  intros Hd. apply Dict_get_None in Hd.
  induction activeDrugs as [|x rest IH]; [reflexivity|].
  cbn [remove]. destruct (string_dec d x) as [<-|Hne].
  - cbn [ResistantVirus.resistant_loop]. unfold ResistantVirus.getResistances.
    rewrite Hd. exact IH.
  - cbn [ResistantVirus.resistant_loop]. now rewrite IH.
Qed.

(** ** C4, C5, C6: the probability tests at the boundary *)

(** [doesClear] and [reproduce] compare with [>=]: the outcome at a draw
    [r] is decided by [r <= p]. *)
Lemma doesClear_true_iff (v : SimpleVirus.t) rnd s :
  SimpleVirus.doesClear v rnd s = Normal true (S s) <->
  rnd s <= SimpleVirus.clearProb v.
Proof.
  rewrite doesClear_eq, <- ge_true.
  split; [intros H; now injection H | intros ->; reflexivity].
Qed.

(** With clearProb = 1 every draw in [0,1) clears the particle. *)
Lemma doesClear_certain (v : SimpleVirus.t) rnd s :
  unit_draws rnd -> SimpleVirus.clearProb v == 1 ->
  SimpleVirus.doesClear v rnd s = Normal true (S s).
Proof.
  intros Hd Hp. apply doesClear_true_iff. rewrite Hp.
  destruct (Hd s) as [_ Hhi]. lra.
Qed.

(** With clearProb = 0 every positive draw leaves the particle. *)
Lemma doesClear_never_positive_draw (v : SimpleVirus.t) rnd s :
  0 < rnd s -> SimpleVirus.clearProb v == 0 ->
  SimpleVirus.doesClear v rnd s = Normal false (S s).
Proof.
  intros Hd Hp. rewrite doesClear_eq.
  assert (E : ge (SimpleVirus.clearProb v) (rnd s) = false).
  { apply ge_false. rewrite Hp. exact Hd. }
  now rewrite E.
Qed.

(** With a birth probability that is not positive, every positive draw
    gives [NoChildException]. *)
Lemma reproduce_never_positive_draw (v : SimpleVirus.t) popDensity rnd s :
  0 < rnd s ->
  birth_probability (SimpleVirus.maxBirthProb v) popDensity <= 0 ->
  SimpleVirus.reproduce v popDensity rnd s = Raised NoChildException (S s).
Proof.
  intros Hd Hp. rewrite reproduce_eq.
  assert (E : ge (birth_probability (SimpleVirus.maxBirthProb v) popDensity) (rnd s)
              = false).
  { apply ge_false. lra. }
  now rewrite E.
Qed.

(** ** C3, C7, C8, C10: one call to [update] *)

(** What a run of [Patient.update] computes when [float(maxPop)] is a
    float other than [0.0]. *)
Lemma Patient_update_run (p : Patient.t) rnd s fmax :
  float_of_int (Patient.maxPop p) = Some fmax -> ~ fmax == 0 ->
  exists surv s1 offspring s2,
    survival_loop SimpleVirus.doesClear (Patient.viruses p) rnd s = Normal surv s1 /\
    reproduction_loop (basic_repro (popDensity_of surv fmax)) surv rnd s1
    = Normal offspring s2 /\
    Patient.update p rnd s
    = Normal (Patient.new (offspring ++ surv) (Patient.maxPop p),
              length (offspring ++ surv)) s2.
Proof.
  intros Hf Hz.
  destruct (update_body SimpleVirus.doesClear basic_repro rnd
              (SimpleVirus_doesClear_total rnd)
              (SimpleVirus_reproduce_total rnd)
              (fun new_virus surviving_virus =>
                 ret (Patient.new (new_virus ++ surviving_virus) (Patient.maxPop p),
                      length (new_virus ++ surviving_virus)))
              (Patient.viruses p) (Patient.maxPop p) fmax s Hf Hz)
    as (surv & s1 & off & s2 & Hs & Hr & Hu).
  exists surv, s1, off, s2. repeat split; assumption.
Qed.


(** What a normal return of [Patient.update] was computed from. *)
Lemma Patient_update_inv (p : Patient.t) rnd s {p' n s'} :
  Patient.update p rnd s = Normal (p', n) s' ->
  exists fmax surv s1 offspring,
    float_of_int (Patient.maxPop p) = Some fmax /\ ~ fmax == 0 /\
    survival_loop SimpleVirus.doesClear (Patient.viruses p) rnd s = Normal surv s1 /\
    reproduction_loop (basic_repro (popDensity_of surv fmax)) surv rnd s1
    = Normal offspring s' /\
    p' = Patient.new (offspring ++ surv) (Patient.maxPop p) /\
    n = length (offspring ++ surv).
Proof.
  intros Hu.
  destruct (update_body_inv SimpleVirus.doesClear basic_repro rnd
              (SimpleVirus_doesClear_total rnd)
              (SimpleVirus_reproduce_total rnd)
              (fun new_virus surviving_virus =>
                 ret (Patient.new (new_virus ++ surviving_virus) (Patient.maxPop p),
                      length (new_virus ++ surviving_virus)))
              (Patient.viruses p) (Patient.maxPop p) s _ _ Hu)
    as (fmax & surv & s1 & off & s2 & Hf & Hz & Hs & Hr & Hk).
  cbv [ret] in Hk. injection Hk as <- <- <-.
  exists fmax, surv, s1, off. repeat split; assumption.
Qed.

Lemma TreatedPatient_update_run (p : TreatedPatient.t) rnd s fmax :
  float_of_int (TreatedPatient.maxPop p) = Some fmax -> ~ fmax == 0 ->
  exists surv s1 offspring s2,
    survival_loop ResistantVirus.doesClear (TreatedPatient.viruses p) rnd s
    = Normal surv s1 /\
    reproduction_loop
      (gated_repro (TreatedPatient.presDrugs p) (popDensity_of surv fmax)) surv rnd s1
    = Normal offspring s2 /\
    TreatedPatient.update p rnd s
    = Normal (TreatedPatient.new' (offspring ++ surv) (TreatedPatient.maxPop p)
                                  (TreatedPatient.presDrugs p),
              length (offspring ++ surv)) s2.
Proof.
  intros Hf Hz.
  destruct (update_body ResistantVirus.doesClear
              (gated_repro (TreatedPatient.presDrugs p)) rnd
              (ResistantVirus_doesClear_total rnd)
              (ResistantVirus_reproduce_total rnd (TreatedPatient.presDrugs p))
              (fun new_virus surviving_virus =>
                 ret (TreatedPatient.new' (new_virus ++ surviving_virus)
                        (TreatedPatient.maxPop p) (TreatedPatient.presDrugs p),
                      length (new_virus ++ surviving_virus)))
              (TreatedPatient.viruses p) (TreatedPatient.maxPop p) fmax s Hf Hz)
    as (surv & s1 & off & s2 & Hs & Hr & Hu).
  exists surv, s1, off, s2. repeat split; assumption.
Qed.


Lemma TreatedPatient_update_inv (p : TreatedPatient.t) rnd s {p' n s'} :
  TreatedPatient.update p rnd s = Normal (p', n) s' ->
  exists fmax surv s1 offspring,
    float_of_int (TreatedPatient.maxPop p) = Some fmax /\ ~ fmax == 0 /\
    survival_loop ResistantVirus.doesClear (TreatedPatient.viruses p) rnd s
    = Normal surv s1 /\
    reproduction_loop
      (gated_repro (TreatedPatient.presDrugs p) (popDensity_of surv fmax)) surv rnd s1
    = Normal offspring s' /\
    p' = TreatedPatient.new' (offspring ++ surv) (TreatedPatient.maxPop p)
                             (TreatedPatient.presDrugs p) /\
    n = length (offspring ++ surv).
Proof.
  intros Hu.
  destruct (update_body_inv ResistantVirus.doesClear
              (gated_repro (TreatedPatient.presDrugs p)) rnd
              (ResistantVirus_doesClear_total rnd)
              (ResistantVirus_reproduce_total rnd (TreatedPatient.presDrugs p))
              (fun new_virus surviving_virus =>
                 ret (TreatedPatient.new' (new_virus ++ surviving_virus)
                        (TreatedPatient.maxPop p) (TreatedPatient.presDrugs p),
                      length (new_virus ++ surviving_virus)))
              (TreatedPatient.viruses p) (TreatedPatient.maxPop p) s _ _ Hu)
    as (fmax & surv & s1 & off & s2 & Hf & Hz & Hs & Hr & Hk).
  cbv [ret] in Hk. injection Hk as <- <- <-.
  exists fmax, surv, s1, off. repeat split; assumption.
Qed.

(** C7: when [update] returns, the returned population size is at most
    twice the number of survivors of the survival loop of that call.
    Both for [Patient] and for [TreatedPatient]. *)
Theorem update_at_most_doubles :
  (forall (p : Patient.t) rnd s p' n s' surv s1,
      Patient.update p rnd s = Normal (p', n) s' ->
      survival_loop SimpleVirus.doesClear (Patient.viruses p) rnd s = Normal surv s1 ->
      (n <= 2 * length surv)%nat /\ n = length (Patient.viruses p')) /\
  (forall (p : TreatedPatient.t) rnd s p' n s' surv s1,
      TreatedPatient.update p rnd s = Normal (p', n) s' ->
      survival_loop ResistantVirus.doesClear (TreatedPatient.viruses p) rnd s
      = Normal surv s1 ->
      (n <= 2 * length surv)%nat /\ n = length (TreatedPatient.viruses p')).
Proof.
  split.
  - intros p rnd s p' n s' surv s1 Hu Hs.
    destruct (Patient_update_inv p rnd s Hu)
      as (fmax & surv' & t1 & off & _ & _ & Hs' & Hr & -> & ->).
    rewrite Hs in Hs'. injection Hs' as <- <-.
    apply reproduction_loop_length in Hr;
      [|intros v s0; apply SimpleVirus_reproduce_total].
    cbn [Patient.viruses]. rewrite length_app. split; [lia | reflexivity].
  - intros p rnd s p' n s' surv s1 Hu Hs.
    destruct (TreatedPatient_update_inv p rnd s Hu)
      as (fmax & surv' & t1 & off & _ & _ & Hs' & Hr & -> & ->).
    rewrite Hs in Hs'. injection Hs' as <- <-.
    apply reproduction_loop_length in Hr;
      [|intros v s0; apply ResistantVirus_reproduce_total].
    cbn [TreatedPatient.viruses]. rewrite length_app. split; [lia | reflexivity].
Qed.

(** C10: when [update] returns, the host it leaves has the same maxPop
    (and, for a treated host, the same list of prescribed drugs), and its
    population is newly created offspring followed by the survivors, which
    are particles of the old population, unchanged and in their old
    order.  Both for [Patient] and for [TreatedPatient]. *)
Theorem update_frame :
  (forall (p : Patient.t) rnd s p' n s',
      Patient.update p rnd s = Normal (p', n) s' ->
      Patient.maxPop p' = Patient.maxPop p /\
      exists surv s1 offspring,
        survival_loop SimpleVirus.doesClear (Patient.viruses p) rnd s = Normal surv s1 /\
        subseq surv (Patient.viruses p) /\
        Patient.viruses p' = offspring ++ surv) /\
  (forall (p : TreatedPatient.t) rnd s p' n s',
      TreatedPatient.update p rnd s = Normal (p', n) s' ->
      TreatedPatient.maxPop p' = TreatedPatient.maxPop p /\
      TreatedPatient.presDrugs p' = TreatedPatient.presDrugs p /\
      exists surv s1 offspring,
        survival_loop ResistantVirus.doesClear (TreatedPatient.viruses p) rnd s
        = Normal surv s1 /\
        subseq surv (TreatedPatient.viruses p) /\
        TreatedPatient.viruses p' = offspring ++ surv).
Proof.
  split.
  - intros p rnd s p' n s' Hu.
    destruct (Patient_update_inv p rnd s Hu)
      as (fmax & surv & s1 & off & _ & _ & Hs & Hr & -> & ->).
    split; [reflexivity|].
    exists surv, s1, off. split; [exact Hs|]. split; [|reflexivity].
    eapply survival_loop_subseq; [|exact Hs].
    apply SimpleVirus_doesClear_total.
  - intros p rnd s p' n s' Hu.
    destruct (TreatedPatient_update_inv p rnd s Hu)
      as (fmax & surv & s1 & off & _ & _ & Hs & Hr & -> & ->).
    split; [reflexivity|]. split; [reflexivity|].
    exists surv, s1, off. split; [exact Hs|]. split; [|reflexivity].
    eapply survival_loop_subseq; [|exact Hs].
    apply ResistantVirus_doesClear_total.
Qed.

(** C3: one call to [update] is exactly the time step of the design.
    Whenever the call returns, what it returns is a result of the step:
    the survival phase over the current particles, one density computed
    from the survivors and [float(maxPop)], one reproduce attempt per
    survivor at that density; the new population is the offspring
    followed by the survivors and the returned integer is its length; no
    other population, total or number of draws is a result of that step.
    And the call does return when maxPop is not zero and [float(maxPop)]
    does not overflow.  Both for [Patient] and for [TreatedPatient]. *)
Theorem update_three_phases :
  (forall (p : Patient.t) rnd s,
      (Patient.maxPop p <> 0%Z -> converts (Patient.maxPop p) ->
       exists p' n s', Patient.update p rnd s = Normal (p', n) s') /\
      (forall p' n s',
          Patient.update p rnd s = Normal (p', n) s' ->
          advanceTimeStep SimpleVirus.doesClear basic_repro rnd
            (Patient.viruses p) (Patient.maxPop p) s (Patient.viruses p') n s' /\
          forall pop2 n2 s2,
            advanceTimeStep SimpleVirus.doesClear basic_repro rnd
              (Patient.viruses p) (Patient.maxPop p) s pop2 n2 s2 ->
            pop2 = Patient.viruses p' /\ n2 = n /\ s2 = s')) /\
  (forall (p : TreatedPatient.t) rnd s,
      (TreatedPatient.maxPop p <> 0%Z -> converts (TreatedPatient.maxPop p) ->
       exists p' n s', TreatedPatient.update p rnd s = Normal (p', n) s') /\
      (forall p' n s',
          TreatedPatient.update p rnd s = Normal (p', n) s' ->
          advanceTimeStep ResistantVirus.doesClear
            (gated_repro (TreatedPatient.presDrugs p)) rnd
            (TreatedPatient.viruses p) (TreatedPatient.maxPop p) s
            (TreatedPatient.viruses p') n s' /\
          forall pop2 n2 s2,
            advanceTimeStep ResistantVirus.doesClear
              (gated_repro (TreatedPatient.presDrugs p)) rnd
              (TreatedPatient.viruses p) (TreatedPatient.maxPop p) s pop2 n2 s2 ->
            pop2 = TreatedPatient.viruses p' /\ n2 = n /\ s2 = s')).
Proof.
  split.
  - intros p rnd s. split.
    + intros Hmax Hc. destruct (converts_nonzero _ Hmax Hc) as (fmax & Hf & Hz).
      destruct (Patient_update_run p rnd s fmax Hf Hz)
        as (surv & s1 & off & s2 & _ & _ & Hu).
      eexists _, _, _. exact Hu.
    + intros p' n s' Hu.
      destruct (Patient_update_inv p rnd s Hu)
        as (fmax & surv & s1 & off & Hf & Hz & Hs & Hr & -> & ->).
      assert (Hstep : advanceTimeStep SimpleVirus.doesClear basic_repro rnd
                        (Patient.viruses p) (Patient.maxPop p) s
                        (off ++ surv) (length (off ++ surv)) s').
      { exists surv, s1, off, fmax.
        split; [apply survival_loop_refines;
                [apply SimpleVirus_doesClear_total | exact Hs]|].
        split; [exact Hf|]. split; [exact Hz|].
        split; [|split; reflexivity].
        apply reproduction_loop_refines;
          [apply SimpleVirus_reproduce_total | exact Hr]. }
      split; [exact Hstep|].
      intros pop2 n2 t2 H2. exact (advanceTimeStep_functional _ _ _ Hstep H2).
  - intros p rnd s. split.
    + intros Hmax Hc. destruct (converts_nonzero _ Hmax Hc) as (fmax & Hf & Hz).
      destruct (TreatedPatient_update_run p rnd s fmax Hf Hz)
        as (surv & s1 & off & s2 & _ & _ & Hu).
      eexists _, _, _. exact Hu.
    + intros p' n s' Hu.
      destruct (TreatedPatient_update_inv p rnd s Hu)
        as (fmax & surv & s1 & off & Hf & Hz & Hs & Hr & -> & ->).
      assert (Hstep : advanceTimeStep ResistantVirus.doesClear
                        (gated_repro (TreatedPatient.presDrugs p)) rnd
                        (TreatedPatient.viruses p) (TreatedPatient.maxPop p) s
                        (off ++ surv) (length (off ++ surv)) s').
      { exists surv, s1, off, fmax.
        split; [apply survival_loop_refines;
                [apply ResistantVirus_doesClear_total | exact Hs]|].
        split; [exact Hf|]. split; [exact Hz|].
        split; [|split; reflexivity].
        apply reproduction_loop_refines;
          [intros d v s0; apply ResistantVirus_reproduce_total | exact Hr]. }
      split; [exact Hstep|].
      intros pop2 n2 t2 H2. exact (advanceTimeStep_functional _ _ _ Hstep H2).
Qed.

(** C8: a [NoChildException] never aborts the time step.  For a host
    whose maxPop is not zero and converts to a float, [update] returns
    normally whatever the attempts give; its offspring are those of one
    attempt per survivor, a failed attempt contributing nothing, and the
    new population is these offspring followed by all the survivors.
    The reproduction loop itself always returns normally, with the
    offspring of the attempts; an attempt that raises
    [NoChildException] is skipped, the loop giving what it gives on
    the remaining survivors from the next draw on, and a successful
    attempt puts its offspring in front of what the remaining survivors
    give.  Both for [Patient] and for [TreatedPatient]. *)
Theorem NoChild_does_not_abort_step :
  (forall (p : Patient.t) rnd s,
      Patient.maxPop p <> 0%Z -> converts (Patient.maxPop p) ->
      exists fmax surv s1 offspring p' n s',
        float_of_int (Patient.maxPop p) = Some fmax /\
        survival_loop SimpleVirus.doesClear (Patient.viruses p) rnd s = Normal surv s1 /\
        attempts basic_repro rnd (popDensity_of surv fmax) surv s1 offspring s' /\
        Patient.update p rnd s = Normal (p', n) s' /\
        Patient.viruses p' = offspring ++ surv /\
        (length offspring <= length surv)%nat) /\
  (forall d surv rnd s,
      exists offspring s',
        reproduction_loop (basic_repro d) surv rnd s = Normal offspring s' /\
        attempts basic_repro rnd d surv s offspring s') /\
  (forall d v rest rnd s s1,
      SimpleVirus.reproduce v d rnd s = Raised NoChildException s1 ->
      reproduction_loop (basic_repro d) (v :: rest) rnd s
      = reproduction_loop (basic_repro d) rest rnd s1) /\
  (forall d v rest rnd s child s1,
      SimpleVirus.reproduce v d rnd s = Normal child s1 ->
      reproduction_loop (basic_repro d) (v :: rest) rnd s
      = match reproduction_loop (basic_repro d) rest rnd s1 with
        | Normal offspring s2 => Normal (child :: offspring) s2
        | Raised e s2 => Raised e s2
        end) /\
  (forall (p : TreatedPatient.t) rnd s,
      TreatedPatient.maxPop p <> 0%Z -> converts (TreatedPatient.maxPop p) ->
      exists fmax surv s1 offspring p' n s',
        float_of_int (TreatedPatient.maxPop p) = Some fmax /\
        survival_loop ResistantVirus.doesClear (TreatedPatient.viruses p) rnd s
        = Normal surv s1 /\
        attempts (gated_repro (TreatedPatient.presDrugs p)) rnd
                 (popDensity_of surv fmax) surv s1 offspring s' /\
        TreatedPatient.update p rnd s = Normal (p', n) s' /\
        TreatedPatient.viruses p' = offspring ++ surv /\
        (length offspring <= length surv)%nat) /\
  (forall drugs d surv rnd s,
      exists offspring s',
        reproduction_loop (gated_repro drugs d) surv rnd s = Normal offspring s' /\
        attempts (gated_repro drugs) rnd d surv s offspring s') /\
  (forall drugs d v rest rnd s s1,
      ResistantVirus.reproduce v d drugs rnd s = Raised NoChildException s1 ->
      reproduction_loop (gated_repro drugs d) (v :: rest) rnd s
      = reproduction_loop (gated_repro drugs d) rest rnd s1) /\
  (forall drugs d v rest rnd s child s1,
      ResistantVirus.reproduce v d drugs rnd s = Normal child s1 ->
      reproduction_loop (gated_repro drugs d) (v :: rest) rnd s
      = match reproduction_loop (gated_repro drugs d) rest rnd s1 with
        | Normal offspring s2 => Normal (child :: offspring) s2
        | Raised e s2 => Raised e s2
        end).
Proof.
  repeat apply conj.
  - intros p rnd s Hmax Hc.
    destruct (converts_nonzero _ Hmax Hc) as (fmax & Hf & Hz).
    destruct (Patient_update_run p rnd s fmax Hf Hz)
      as (surv & s1 & off & s2 & Hs & Hr & Hu).
    exists fmax, surv, s1, off. eexists _, _, _.
    split; [exact Hf|]. split; [exact Hs|].
    split; [apply reproduction_loop_refines;
            [apply SimpleVirus_reproduce_total | exact Hr]|].
    split; [exact Hu|]. split; [reflexivity|].
    eapply reproduction_loop_length; [|exact Hr].
    intros v s0. apply SimpleVirus_reproduce_total.
  - intros d surv rnd s.
    destruct (reproduction_loop_total (basic_repro d) rnd
                (SimpleVirus_reproduce_total rnd d) surv s) as (off & s' & Hr).
    exists off, s'. split; [exact Hr|].
    apply reproduction_loop_refines; [apply SimpleVirus_reproduce_total | exact Hr].
  - intros d v rest rnd s s1 H. unfold reproduction_loop.
    now apply reproduction_step_skip.
  - intros d v rest rnd s child s1 H.
    exact (reproduction_loop_child (basic_repro d) rnd
             (SimpleVirus_reproduce_total rnd d) rest H).
  - intros p rnd s Hmax Hc.
    destruct (converts_nonzero _ Hmax Hc) as (fmax & Hf & Hz).
    destruct (TreatedPatient_update_run p rnd s fmax Hf Hz)
      as (surv & s1 & off & s2 & Hs & Hr & Hu).
    exists fmax, surv, s1, off. eexists _, _, _.
    split; [exact Hf|]. split; [exact Hs|].
    split; [apply reproduction_loop_refines;
            [intros d v s0; apply ResistantVirus_reproduce_total | exact Hr]|].
    split; [exact Hu|]. split; [reflexivity|].
    eapply reproduction_loop_length; [|exact Hr].
    intros v s0. apply ResistantVirus_reproduce_total.
  - intros drugs d surv rnd s.
    destruct (reproduction_loop_total (gated_repro drugs d) rnd
                (ResistantVirus_reproduce_total rnd drugs d) surv s) as (off & s' & Hr).
    exists off, s'. split; [exact Hr|].
    apply reproduction_loop_refines;
      [intros d0 v s0; apply ResistantVirus_reproduce_total | exact Hr].
  - intros drugs d v rest rnd s s1 H. unfold reproduction_loop.
    now apply reproduction_step_skip.
  - intros drugs d v rest rnd s child s1 H.
    exact (reproduction_loop_child (gated_repro drugs d) rnd
             (ResistantVirus_reproduce_total rnd drugs d) rest H).
Qed.

(** C9: for a drug [d] that is not a key of the resistance map,
    [isResistantTo d] is [None]; the gate flag is [False] only through an
    explicit [False] entry; [reproduce] behaves with [d] among the active
    drugs exactly as without it; and with [d] as the only active drug the
    particle reproduces whenever the draw is at most the birth
    probability the code computes. *)
Theorem unlisted_drug_does_not_block (v : ResistantVirus.t) (d : string) :
  ~ In d (Dict.keys (ResistantVirus.resistance v)) ->
  ResistantVirus.isResistantTo v d = None /\
  (forall activeDrugs,
      ResistantVirus.resistant_loop v activeDrugs true = false <->
      exists d', In d' activeDrugs /\ ResistantVirus.isResistantTo v d' = Some false) /\
  (forall popDensity activeDrugs rnd s,
      ResistantVirus.reproduce v popDensity activeDrugs rnd s
      = ResistantVirus.reproduce v popDensity (remove string_dec d activeDrugs) rnd s) /\
  (forall popDensity rnd s,
      rnd s <= birth_probability (ResistantVirus.maxBirthProb v) popDensity ->
      exists child s', ResistantVirus.reproduce v popDensity [d] rnd s = Normal child s').
Proof.
  intros Hd. split; [|split; [|split]].
  - now apply Dict_get_None.
  - intros activeDrugs. apply resistant_loop_false_iff.
  - intros popDensity activeDrugs rnd s.
    rewrite !ResistantVirus_reproduce_eq.
    now rewrite <- (resistant_loop_remove v d activeDrugs Hd).
  - intros popDensity rnd s Hdraw.
    rewrite ResistantVirus_reproduce_eq.
    rewrite (resistant_loop_remove v d [d] Hd). cbn [remove].
    destruct (string_dec d d) as [_|Hne]; [|contradiction].
    cbn [ResistantVirus.resistant_loop].
    apply ge_true in Hdraw. rewrite Hdraw.
    unfold ResistantVirus.mutation_loop.
    destruct (mutation_loop_from_total rnd v (ResistantVirus.resistance v) [] (S s))
      as (r & Hr).
    rewrite Hr. eauto.
Qed.

(* ------------------------------------------------------------------ *)
(** * Further properties of the code *)

(** ** [ResistantVirus.reproduce]: the offspring's dictionary *)

Lemma mutation_step_eq (v : ResistantVirus.t) new_res k b rnd s :
  ResistantVirus.mutation_step v new_res (k, b) rnd s
  = Normal (Dict.set new_res k (offspring_trait v b (rnd s))) (S s).
Proof.
  unfold ResistantVirus.mutation_step, offspring_trait. cbn [fst snd].
  destruct b; cbv [Bool.eqb bind random]; destruct (gt _ _); reflexivity.
Qed.

Lemma mutated_keys v items rnd : forall s,
  Dict.keys (mutated v items rnd s) = Dict.keys items.
Proof.
  induction items as [|[k b] rest IH]; intros s; cbn; [reflexivity|].
  f_equal. apply IH.
Qed.

Lemma mutated_length v items rnd : forall s,
  length (mutated v items rnd s) = length items.
Proof.
  induction items as [|[k b] rest IH]; intros s; cbn; [reflexivity|].
  f_equal. apply IH.
Qed.

Lemma mutation_loop_from v rnd items : forall acc s,
  NoDup (Dict.keys acc ++ Dict.keys items) ->
  for_each items (ResistantVirus.mutation_step v) acc rnd s
  = Normal (acc ++ mutated v items rnd s) (s + length items).
Proof.
  induction items as [|[k b] rest IH]; intros acc s Hnd.
  - cbn. now rewrite app_nil_r, Nat.add_0_r.
  - rewrite for_each_cons, mutation_step_eq.
    cbn [Dict.keys map fst] in Hnd.
    assert (Hk : ~ In k (Dict.keys acc)).
    { apply NoDup_remove_2 in Hnd. intros Hin. apply Hnd.
      apply in_or_app. now left. }
    rewrite (Dict_set_fresh acc k _ Hk), IH.
    + cbn [mutated length]. rewrite <- app_assoc. cbn [app]. f_equal. lia.
    + unfold Dict.keys in *. rewrite map_app, <- app_assoc. exact Hnd.
Qed.

(** ** [TreatedPatient.addPrescription] and [getResistPop] *)

Lemma existsb_eqb_In d ds :
  existsb (String.eqb d) ds = true <-> In d ds.
Proof.
  rewrite existsb_exists. split.
  - intros (x & Hin & E). apply String.eqb_eq in E. now subst.
  - intros Hin. exists d. split; [assumption | apply String.eqb_refl].
Qed.

(** ** [ResistantVirus.reproduce]: what an offspring inherits *)

Lemma reproduce_Normal_inv (v : ResistantVirus.t) d drugs rnd s {child s'} :
  Dict.wf (ResistantVirus.resistance v) ->
  ResistantVirus.reproduce v d drugs rnd s = Normal child s' ->
  ResistantVirus.resistant_loop v drugs true = true /\
  rnd s <= birth_probability (ResistantVirus.maxBirthProb v) d /\
  child = ResistantVirus.new (ResistantVirus.maxBirthProb v) (ResistantVirus.clearProb v)
            (mutated v (ResistantVirus.resistance v) rnd (S s))
            (ResistantVirus.mutProb v) /\
  s' = (S s + length (ResistantVirus.resistance v))%nat.
Proof.
  intros Hwf H. rewrite ResistantVirus_reproduce_eq in H.
  destruct (ResistantVirus.resistant_loop v drugs true); [|discriminate].
  destruct (ge _ _) eqn:E; [|discriminate].
  unfold ResistantVirus.mutation_loop in H.
  rewrite (mutation_loop_from v rnd (ResistantVirus.resistance v) [] (S s) Hwf) in H.
  cbn [app] in H. injection H as <- <-.
  apply ge_true in E. repeat split; assumption.
Qed.

(** X1: a successful [reproduce] of a particle whose dictionary has
    distinct keys returns an offspring with the parent's maxBirthProb,
    clearProb and mutProb and with the parent's drug keys in the parent's
    order, and it consumes one draw plus one draw per drug key. *)
Theorem offspring_inherits_parameters
        (v : ResistantVirus.t) (popDensity : Q) (activeDrugs : list string)
        (rnd : Draws) (s : nat) (child : ResistantVirus.t) (s' : nat) :
  Dict.wf (ResistantVirus.resistance v) ->
  ResistantVirus.reproduce v popDensity activeDrugs rnd s = Normal child s' ->
  ResistantVirus.getMaxBirthProb child = ResistantVirus.getMaxBirthProb v /\
  ResistantVirus.getClearProb child = ResistantVirus.getClearProb v /\
  ResistantVirus.getMutProb child = ResistantVirus.getMutProb v /\
  Dict.keys (ResistantVirus.getResistances child)
  = Dict.keys (ResistantVirus.getResistances v) /\
  s' = (s + 1 + length (ResistantVirus.resistance v))%nat.
Proof.
  intros Hwf H.
  destruct (reproduce_Normal_inv v popDensity activeDrugs rnd s Hwf H)
    as (_ & _ & -> & ->).
  repeat split; try reflexivity.
  - apply mutated_keys.
  - lia.
Qed.

Lemma mutated_nth v rnd items : forall s i k b,
  nth_error items i = Some (k, b) ->
  nth_error (mutated v items rnd s) i
  = Some (k, offspring_trait v b (rnd (s + i)%nat)).
Proof.
  induction items as [|[k0 b0] rest IH]; intros s i k b H.
  - destruct i; discriminate H.
  - destruct i as [|i]; cbn in *.
    + injection H as -> ->. now rewrite Nat.add_0_r.
    + rewrite (IH (S s) i k b H).
      replace (s + S i)%nat with (S s + i)%nat by lia. reflexivity.
Qed.

(** X2: in a successful [reproduce] (dictionary with distinct keys) the
    [i]-th drug of the parent keeps its place in the offspring, and its
    trait is decided by the [i]-th draw after the birth draw alone: a
    resistant parent passes resistance on exactly when that draw is below
    the float [1 - mutProb], a non-resistant parent's offspring becomes
    resistant exactly when that draw is below [mutProb]. *)
Theorem offspring_trait_by_draw
        (v : ResistantVirus.t) (popDensity : Q) (activeDrugs : list string)
        (rnd : Draws) (s : nat) (child : ResistantVirus.t) (s' : nat)
        (i : nat) (k : string) (b : bool) :
  Dict.wf (ResistantVirus.resistance v) ->
  ResistantVirus.reproduce v popDensity activeDrugs rnd s = Normal child s' ->
  nth_error (ResistantVirus.resistance v) i = Some (k, b) ->
  exists b',
    nth_error (ResistantVirus.resistance child) i = Some (k, b') /\
    (b' = true <->
     (b = true /\ rnd (S s + i)%nat < fsub 1 (ResistantVirus.mutProb v)) \/
     (b = false /\ rnd (S s + i)%nat < ResistantVirus.mutProb v)).
Proof.
  intros Hwf H Hi.
  destruct (reproduce_Normal_inv v popDensity activeDrugs rnd s Hwf H)
    as (_ & _ & -> & _).
  exists (offspring_trait v b (rnd (S s + i)%nat)). split.
  - cbn [ResistantVirus.resistance ResistantVirus.new].
    now apply mutated_nth.
  - unfold offspring_trait. destruct b; rewrite gt_true; split.
    + intros Hlt. left. now split.
    + intros [[_ Hlt]|[Hf _]]; [assumption | discriminate].
    + intros Hlt. right. now split.
    + intros [[Hf _]|[_ Hlt]]; [discriminate | assumption].
Qed.

Lemma mutated_zero v rnd items : forall s,
  unit_draws rnd -> ResistantVirus.mutProb v == 0 ->
  mutated v items rnd s = items.
Proof.
  induction items as [|[k b] rest IH]; intros s Hd Hm; cbn; [reflexivity|].
  rewrite (IH (S s) Hd Hm). do 2 f_equal.
  destruct (Hd s) as [Hlo Hhi]. unfold offspring_trait. destruct b.
  - apply gt_true. rewrite (fsub_zero 1 (ResistantVirus.mutProb v) Hm). exact Hhi.
  - apply gt_false. rewrite Hm. exact Hlo.
Qed.

(** X3: with mutProb = 0 and draws in [0,1), the offspring of a
    successful [reproduce] (dictionary with distinct keys) has exactly the
    parent's resistance dictionary. *)
Theorem mutProb_zero_offspring_identical
        (v : ResistantVirus.t) (popDensity : Q) (activeDrugs : list string)
        (rnd : Draws) (s : nat) (child : ResistantVirus.t) (s' : nat) :
  unit_draws rnd ->
  Dict.wf (ResistantVirus.resistance v) ->
  ResistantVirus.mutProb v == 0 ->
  ResistantVirus.reproduce v popDensity activeDrugs rnd s = Normal child s' ->
  ResistantVirus.getResistances child = ResistantVirus.getResistances v.
Proof.
  intros Hd Hwf Hm H.
  destruct (reproduce_Normal_inv v popDensity activeDrugs rnd s Hwf H)
    as (_ & _ & -> & _).
  unfold ResistantVirus.getResistances.
  cbn [ResistantVirus.resistance ResistantVirus.new].
  now apply mutated_zero.
Qed.

(** ** [ResistantVirus.reproduce]: the gate *)

Lemma resistant_loop_true_iff (v : ResistantVirus.t) (activeDrugs : list string) :
  ResistantVirus.resistant_loop v activeDrugs true = true <->
  forall d, In d activeDrugs -> ResistantVirus.isResistantTo v d <> Some false.
Proof.
  split.
  - intros Ht d Hin Hd.
    assert (Hf : ResistantVirus.resistant_loop v activeDrugs true = false).
    { apply resistant_loop_false_iff. now exists d. }
    congruence.
  - intros Hall.
    destruct (ResistantVirus.resistant_loop v activeDrugs true) eqn:E; [reflexivity|].
    apply resistant_loop_false_iff in E. destruct E as (d & Hin & Hd).
    exfalso. exact (Hall d Hin Hd).
Qed.

(** X4: [reproduce] raises nothing but [NoChildException]; it raises
    without making any draw exactly when some active drug has an explicit
    [False] entry, and it raises after one draw exactly when no active
    drug has such an entry and the draw exceeds the float
    [maxBirthProb * (1 - popDensity)]. *)
Theorem reproduce_raises_iff
        (v : ResistantVirus.t) (popDensity : Q) (activeDrugs : list string)
        (rnd : Draws) (s : nat) :
  (forall e s', ResistantVirus.reproduce v popDensity activeDrugs rnd s = Raised e s' ->
                e = NoChildException /\ (s' = s \/ s' = S s)) /\
  (ResistantVirus.reproduce v popDensity activeDrugs rnd s = Raised NoChildException s <->
   exists d, In d activeDrugs /\ ResistantVirus.isResistantTo v d = Some false) /\
  (ResistantVirus.reproduce v popDensity activeDrugs rnd s = Raised NoChildException (S s) <->
   (forall d, In d activeDrugs -> ResistantVirus.isResistantTo v d <> Some false) /\
   birth_probability (ResistantVirus.maxBirthProb v) popDensity < rnd s).
Proof.
  rewrite <- resistant_loop_false_iff, <- resistant_loop_true_iff.
  rewrite ResistantVirus_reproduce_eq.
  destruct (ResistantVirus.resistant_loop v activeDrugs true).
  - destruct (ge _ _) eqn:E.
    + unfold ResistantVirus.mutation_loop.
      destruct (mutation_loop_from_total rnd v (ResistantVirus.resistance v) [] (S s))
        as (r & ->).
      apply ge_true in E.
      split; [intros e s' H; discriminate H|].
      split; split; try discriminate.
      intros [_ Hlt]. exfalso. exact (Qlt_not_le _ _ Hlt E).
    + apply ge_false in E.
      split; [intros e s' H; injection H as <- <-; split; [reflexivity | now right]|].
      split; split; try discriminate.
      * intros H. injection H as H. exfalso. lia.
      * intros _. now split.
      * reflexivity.
  - split; [intros e s' H; injection H as <- <-; split; [reflexivity | now left]|].
    split; split; try reflexivity.
    + intros H. injection H as H. exfalso. lia.
    + intros [H _]. discriminate H.
Qed.

(** X5: the outcome of [reproduce] depends on the active drugs only as a
    set: two lists with the same members, in any order and with any
    repetitions, give the same outcome. *)
Theorem reproduce_active_drugs_as_set
        (v : ResistantVirus.t) (popDensity : Q) (drugs1 drugs2 : list string)
        (rnd : Draws) (s : nat) :
  (forall d, In d drugs1 <-> In d drugs2) ->
  ResistantVirus.reproduce v popDensity drugs1 rnd s
  = ResistantVirus.reproduce v popDensity drugs2 rnd s.
Proof.
  intros Hsame. rewrite !ResistantVirus_reproduce_eq.
  assert (E : ResistantVirus.resistant_loop v drugs1 true
              = ResistantVirus.resistant_loop v drugs2 true).
  { destruct (ResistantVirus.resistant_loop v drugs2 true) eqn:E2.
    - apply resistant_loop_true_iff. intros d Hin.
      apply Hsame in Hin.
      exact (proj1 (resistant_loop_true_iff v drugs2) E2 d Hin).
    - apply resistant_loop_false_iff. apply resistant_loop_false_iff in E2.
      destruct E2 as (d & Hin & Hd). exists d. split; [now apply Hsame | assumption]. }
  now rewrite E.
Qed.

(** X6: prescribing more drugs can only block: when [reproduce] returns
    an offspring under a list of active drugs, it returns the same
    offspring, after the same draws, under any list with fewer members. *)
Theorem reproduce_fewer_drugs
        (v : ResistantVirus.t) (popDensity : Q) (drugs1 drugs2 : list string)
        (rnd : Draws) (s : nat) (child : ResistantVirus.t) (s' : nat) :
  incl drugs1 drugs2 ->
  ResistantVirus.reproduce v popDensity drugs2 rnd s = Normal child s' ->
  ResistantVirus.reproduce v popDensity drugs1 rnd s = Normal child s'.
Proof.
  intros Hincl H. rewrite ResistantVirus_reproduce_eq in *.
  destruct (ResistantVirus.resistant_loop v drugs2 true) eqn:E2; [|discriminate].
  assert (E1 : ResistantVirus.resistant_loop v drugs1 true = true).
  { apply resistant_loop_true_iff. intros d Hin.
    exact (proj1 (resistant_loop_true_iff v drugs2) E2 d (Hincl d Hin)). }
  now rewrite E1.
Qed.

(** X7: a particle with an explicit [True] entry for every active drug
    reproduces exactly as it does with no active drug at all. *)
Theorem reproduce_fully_resistant
        (v : ResistantVirus.t) (popDensity : Q) (activeDrugs : list string)
        (rnd : Draws) (s : nat) :
  (forall d, In d activeDrugs -> ResistantVirus.isResistantTo v d = Some true) ->
  ResistantVirus.reproduce v popDensity activeDrugs rnd s
  = ResistantVirus.reproduce v popDensity [] rnd s.
Proof.
  intros Hall. rewrite !ResistantVirus_reproduce_eq.
  assert (E : ResistantVirus.resistant_loop v activeDrugs true = true).
  { apply resistant_loop_true_iff. intros d Hin Hd.
    rewrite (Hall d Hin) in Hd. discriminate Hd. }
  now rewrite E.
Qed.

(** ** [TreatedPatient.addPrescription] *)

Lemma addPrescription_fields (p : TreatedPatient.t) d :
  TreatedPatient.viruses (TreatedPatient.addPrescription p d) = TreatedPatient.viruses p /\
  TreatedPatient.maxPop (TreatedPatient.addPrescription p d) = TreatedPatient.maxPop p /\
  TreatedPatient.presDrugs (TreatedPatient.addPrescription p d)
  = if existsb (String.eqb d) (TreatedPatient.presDrugs p)
    then TreatedPatient.presDrugs p
    else TreatedPatient.presDrugs p ++ [d].
Proof.
  unfold TreatedPatient.addPrescription.
  destruct (existsb _ _); repeat split; reflexivity.
Qed.

(** X8: [addPrescription] is idempotent: prescribing a drug a second
    time leaves the host exactly as the first prescription left it. *)
Theorem addPrescription_idempotent (p : TreatedPatient.t) (d : string) :
  TreatedPatient.addPrescription (TreatedPatient.addPrescription p d) d
  = TreatedPatient.addPrescription p d.
Proof.
  unfold TreatedPatient.addPrescription at 1.
  destruct (addPrescription_fields p d) as (_ & _ & ->).
  destruct (existsb (String.eqb d) (TreatedPatient.presDrugs p)) eqn:E.
  - now rewrite E.
  - assert (E' : existsb (String.eqb d) (TreatedPatient.presDrugs p ++ [d]) = true).
    { apply existsb_eqb_In. apply in_or_app. right. now left. }
    now rewrite E'.
Qed.

(** X9: [addPrescription] never removes or reorders: the earlier
    prescriptions stay, in place, at the front of the list; at most one
    name is appended; the drug is prescribed afterwards; the population
    and maxPop are untouched. *)
Theorem addPrescription_grows (p : TreatedPatient.t) (d : string) :
  exists tail,
    TreatedPatient.getPrescriptions (TreatedPatient.addPrescription p d)
    = TreatedPatient.getPrescriptions p ++ tail /\
    (tail = [] \/ tail = [d]) /\
    In d (TreatedPatient.getPrescriptions (TreatedPatient.addPrescription p d)) /\
    TreatedPatient.getViruses (TreatedPatient.addPrescription p d)
    = TreatedPatient.getViruses p /\
    TreatedPatient.getMaxPop (TreatedPatient.addPrescription p d)
    = TreatedPatient.getMaxPop p.
Proof.
  unfold TreatedPatient.getPrescriptions, TreatedPatient.getViruses,
    TreatedPatient.getMaxPop.
  destruct (addPrescription_fields p d) as (-> & -> & ->).
  destruct (existsb (String.eqb d) (TreatedPatient.presDrugs p)) eqn:E.
  - exists []. rewrite app_nil_r. repeat split; try reflexivity; [now left|].
    now apply existsb_eqb_In.
  - exists [d]. repeat split; try reflexivity; [now right|].
    apply in_or_app. right. now left.
Qed.

Lemma addPrescription_NoDup (p : TreatedPatient.t) d :
  NoDup (TreatedPatient.presDrugs p) ->
  NoDup (TreatedPatient.presDrugs (TreatedPatient.addPrescription p d)).
Proof.
  intros Hnd. destruct (addPrescription_fields p d) as (_ & _ & ->).
  destruct (existsb (String.eqb d) (TreatedPatient.presDrugs p)) eqn:E; [assumption|].
  apply NoDup_app; [assumption | constructor; [intros [] | constructor] |].
  intros x Hx [<-|[]].
  apply existsb_eqb_In in Hx. congruence.
Qed.

Lemma addPrescription_In (p : TreatedPatient.t) d x :
  In x (TreatedPatient.presDrugs (TreatedPatient.addPrescription p d)) <->
  In x (TreatedPatient.presDrugs p) \/ x = d.
Proof.
  destruct (addPrescription_fields p d) as (_ & _ & ->).
  destruct (existsb (String.eqb d) (TreatedPatient.presDrugs p)) eqn:E.
  - apply existsb_eqb_In in E. split; [now left | intros [H| ->]; assumption].
  - rewrite in_app_iff. cbn. split.
    + intros [H|[<-|[]]]; [now left | now right].
    + intros [H| ->]; [now left | right; now left].
Qed.

Lemma prescriptions_fold ds : forall p : TreatedPatient.t,
  NoDup (TreatedPatient.presDrugs p) ->
  let p' := fold_left TreatedPatient.addPrescription ds p in
  NoDup (TreatedPatient.presDrugs p') /\
  (forall x, In x (TreatedPatient.presDrugs p') <->
             In x (TreatedPatient.presDrugs p) \/ In x ds) /\
  TreatedPatient.viruses p' = TreatedPatient.viruses p /\
  TreatedPatient.maxPop p' = TreatedPatient.maxPop p.
Proof.
  induction ds as [|d rest IH]; intros p Hnd; cbn.
  - repeat split; try assumption; try reflexivity; [now left | intros [H|[]]; assumption].
  - destruct (IH (TreatedPatient.addPrescription p d) (addPrescription_NoDup p d Hnd))
      as (Hnd' & Hin & Hv & Hm).
    destruct (addPrescription_fields p d) as (Ev & Em & _).
    split; [exact Hnd'|]. split; [|split; congruence].
    intros x. rewrite Hin, addPrescription_In. cbn [In].
    intuition (subst; auto).
Qed.

(** X10: starting from a freshly constructed host, any sequence of
    prescriptions leaves a list without repetitions whose members are
    exactly the drugs that were prescribed, and leaves the population and
    maxPop as constructed. *)
Theorem prescriptions_are_a_set
        (viruses : list ResistantVirus.t) (maxPop : Z) (drugs : list string) :
  let p := fold_left TreatedPatient.addPrescription drugs
                     (TreatedPatient.new viruses maxPop) in
  NoDup (TreatedPatient.getPrescriptions p) /\
  (forall d, In d (TreatedPatient.getPrescriptions p) <-> In d drugs) /\
  TreatedPatient.getViruses p = viruses /\
  TreatedPatient.getMaxPop p = maxPop.
Proof.
  destruct (prescriptions_fold drugs (TreatedPatient.new viruses maxPop))
    as (Hnd & Hin & Hv & Hm); [constructor|].
  cbn zeta. repeat split; try assumption.
  - intros H. apply Hin in H. destruct H as [[]|H]. exact H.
  - intros H. apply Hin. now right.
Qed.

(** ** [TreatedPatient.getResistPop] *)

Lemma sub_count_bound v ds : forall acc,
  (TreatedPatient.sub_count v ds acc <= acc + length ds)%nat /\
  (TreatedPatient.sub_count v ds acc = acc + length ds <-> resistant_to_all v ds = true)%nat.
Proof.
  unfold resistant_to_all, ResistantVirus.isResistantTo.
  induction ds as [|d rest IH]; intros acc; cbn [TreatedPatient.sub_count forallb length].
  - split; [lia|]. split; [reflexivity | lia].
  - destruct (Dict.eq_True (Dict.get (ResistantVirus.getResistances v) d)); cbn [andb].
    + destruct (IH (acc + 1)%nat) as [Hle Hiff]. split; [lia|].
      rewrite <- Hiff. lia.
    + destruct (IH acc) as [Hle _]. split; [lia|].
      split; [lia | discriminate].
Qed.

Lemma sub_count_test v ds :
  Nat.eqb (TreatedPatient.sub_count v ds 0) (length ds) = resistant_to_all v ds.
Proof.
  destruct (sub_count_bound v ds 0) as [_ Hiff]. cbn in Hiff.
  destruct (resistant_to_all v ds).
  - apply Nat.eqb_eq. now apply Hiff.
  - apply Nat.eqb_neq. intros H. apply Hiff in H. discriminate H.
Qed.

Lemma getResistPop_fold ds vs : forall count,
  fold_left
    (fun count virus =>
       if Nat.eqb (TreatedPatient.sub_count virus ds 0) (length ds)
       then (count + 1)%nat else count) vs count
  = (count + length (filter (fun v => resistant_to_all v ds) vs))%nat.
Proof.
  induction vs as [|v rest IH]; intros count; cbn [fold_left filter].
  - cbn. lia.
  - rewrite IH, sub_count_test.
    destruct (resistant_to_all v ds); cbn [length]; lia.
Qed.

(** X11: [getResistPop] counts exactly the particles that have an
    explicit [True] entry for every listed drug; repetitions in the list
    make no difference, and a particle with no entry for a listed drug is
    not counted. *)
Theorem getResistPop_counts (p : TreatedPatient.t) (drugResist : list string) :
  TreatedPatient.getResistPop p drugResist
  = length (filter (fun v => resistant_to_all v drugResist) (TreatedPatient.getViruses p)).
Proof.
  unfold TreatedPatient.getResistPop. now rewrite getResistPop_fold.
Qed.

Lemma filter_length_le_impl {A} (f g : A -> bool) l :
  (forall x, In x l -> f x = true -> g x = true) ->
  (length (filter f l) <= length (filter g l))%nat.
Proof.
  induction l as [|x rest IH]; intros H; cbn; [lia|].
  assert (IH' : (length (filter f rest) <= length (filter g rest))%nat).
  { apply IH. intros y Hy. apply H. now right. }
  destruct (f x) eqn:Ef.
  - rewrite (H x (or_introl eq_refl) Ef). cbn. lia.
  - destruct (g x); cbn; lia.
Qed.

(** X12: asking [getResistPop] for more drugs never gives a larger
    count, and no count exceeds the total population; with the empty
    list every particle is counted. *)
Theorem getResistPop_antitone (p : TreatedPatient.t) (drugs1 drugs2 : list string) :
  incl drugs1 drugs2 ->
  (TreatedPatient.getResistPop p drugs2 <= TreatedPatient.getResistPop p drugs1)%nat /\
  (TreatedPatient.getResistPop p drugs1 <= TreatedPatient.getTotalPop p)%nat /\
  TreatedPatient.getResistPop p [] = TreatedPatient.getTotalPop p.
Proof.
  intros Hincl. rewrite !getResistPop_counts. unfold TreatedPatient.getTotalPop,
    TreatedPatient.getViruses.
  split; [|split].
  - apply filter_length_le_impl. intros v _ H2.
    unfold resistant_to_all in *. rewrite forallb_forall in *.
    intros d Hd. apply H2. now apply Hincl.
  - apply filter_length_le.
  - cbn. induction (TreatedPatient.viruses p) as [|v rest IH]; cbn; [reflexivity|].
    now rewrite IH.
Qed.

(** ** One call to [update]: draws, bounds and special populations *)

Section LoopCounts.

Context {V : Type}.
Variable clears : V -> M bool.
Variable repro : V -> M V.
Variable rnd : Draws.

(** [doesClear] makes exactly one draw. *)
Hypothesis clears_one_draw :
  forall v s, exists b, clears v rnd s = Normal b (S s).

Lemma clears_one_draw_total : forall v s, exists b s1, clears v rnd s = Normal b s1.
Proof. intros v s. destruct (clears_one_draw v s) as (b & Hb). eauto. Qed.

Lemma survival_loop_draws vs : forall s surv s1,
  survival_loop clears vs rnd s = Normal surv s1 -> s1 = (s + length vs)%nat.
Proof.
  induction vs as [|v rest IH]; intros s surv s1 H.
  - cbn in H. injection H as <- <-. cbn. lia.
  - destruct (clears_one_draw v s) as (b & Hb).
    rewrite (survival_loop_cons clears rnd clears_one_draw_total rest Hb) in H.
    destruct (survival_loop clears rest rnd (S s)) as [l t|] eqn:E; [|discriminate].
    injection H as <- <-. apply IH in E. cbn. lia.
Qed.

Lemma survival_loop_length vs : forall s surv s1,
  survival_loop clears vs rnd s = Normal surv s1 -> (length surv <= length vs)%nat.
Proof.
  induction vs as [|v rest IH]; intros s surv s1 H.
  - cbn in H. injection H as <- <-. cbn. lia.
  - destruct (clears_one_draw v s) as (b & Hb).
    rewrite (survival_loop_cons clears rnd clears_one_draw_total rest Hb) in H.
    destruct (survival_loop clears rest rnd (S s)) as [l t|] eqn:E; [|discriminate].
    injection H as <- <-. apply IH in E. destruct b; cbn; lia.
Qed.


Lemma reproduction_loop_all_fail vs : forall s,
  (forall v, In v vs -> forall t, exists t1, repro v rnd t = Raised NoChildException t1) ->
  exists s1, reproduction_loop repro vs rnd s = Normal [] s1.
Proof.
  induction vs as [|v rest IH]; intros s Hall.
  - exists s. reflexivity.
  - destruct (Hall v (or_introl eq_refl) s) as (t1 & Hf).
    unfold reproduction_loop. rewrite (reproduction_step_skip repro rnd rest [] Hf).
    apply IH. intros w Hw. apply Hall. now right.
Qed.


(** [reproduce] makes exactly one draw, whatever the outcome. *)
Lemma reproduction_loop_draws vs : forall s offspring s1,
  (forall v t, (exists c, repro v rnd t = Normal c (S t)) \/
               repro v rnd t = Raised NoChildException (S t)) ->
  reproduction_loop repro vs rnd s = Normal offspring s1 ->
  s1 = (s + length vs)%nat.
Proof.
  induction vs as [|v rest IH]; intros s offspring s1 Hone H.
  - cbn in H. injection H as <- <-. cbn. lia.
  - assert (Htot : forall v s,
               (exists child s1, repro v rnd s = Normal child s1) \/
               (exists s1, repro v rnd s = Raised NoChildException s1)).
    { intros w t. destruct (Hone w t) as [(c & Hc)|Hc]; eauto. }
    destruct (Hone v s) as [(c & Hc)|Hc].
    + rewrite (reproduction_loop_child repro rnd Htot rest Hc) in H.
      destruct (reproduction_loop repro rest rnd (S s)) as [l t|] eqn:E; [|discriminate].
      injection H as <- <-. apply (IH _ _ _ Hone) in E. cbn. lia.
    + unfold reproduction_loop in H.
      rewrite (reproduction_step_skip repro rnd rest [] Hc) in H.
      apply (IH _ _ _ Hone) in H. cbn. lia.
Qed.

(** Every offspring is the offspring of some survivor. *)
Lemma reproduction_loop_parent vs : forall s offspring s1,
  (forall v s,
      (exists child s1, repro v rnd s = Normal child s1) \/
      (exists s1, repro v rnd s = Raised NoChildException s1)) ->
  reproduction_loop repro vs rnd s = Normal offspring s1 ->
  forall c, In c offspring -> exists v t t1, In v vs /\ repro v rnd t = Normal c t1.
Proof.
  induction vs as [|v rest IH]; intros s offspring s1 Htot H c Hc.
  - cbn in H. injection H as <- <-. destruct Hc.
  - destruct (Htot v s) as [(c0 & t & Hc0)|(t & Hc0)].
    + rewrite (reproduction_loop_child repro rnd Htot rest Hc0) in H.
      destruct (reproduction_loop repro rest rnd t) as [l t'|] eqn:E; [|discriminate].
      injection H as <- <-. destruct Hc as [<-|Hc].
      * exists v, s, t. split; [now left | assumption].
      * destruct (IH _ _ _ Htot E c Hc) as (w & a & b & Hw & Hr).
        exists w, a, b. split; [now right | assumption].
    + unfold reproduction_loop in H.
      rewrite (reproduction_step_skip repro rnd rest [] Hc0) in H.
      destruct (IH _ _ _ Htot H c Hc) as (w & a & b & Hw & Hr).
      exists w, a, b. split; [now right | assumption].
Qed.

End LoopCounts.

Lemma subseq_In {A} {l1 l2 : list A} :
  subseq l1 l2 -> forall x, In x l1 -> In x l2.
Proof.
  induction 1 as [|y l1 l2 _ IH|y l1 l2 _ IH]; intros x Hx.
  - destruct Hx.
  - right. now apply IH.
  - destruct Hx as [<-|Hx]; [now left | right; now apply IH].
Qed.

Lemma SimpleVirus_doesClear_one_draw rnd (v : SimpleVirus.t) s :
  exists b, SimpleVirus.doesClear v rnd s = Normal b (S s).
Proof. rewrite doesClear_eq. eauto. Qed.

Lemma ResistantVirus_doesClear_one_draw rnd (v : ResistantVirus.t) s :
  exists b, ResistantVirus.doesClear v rnd s = Normal b (S s).
Proof. apply SimpleVirus_doesClear_one_draw. Qed.

Lemma SimpleVirus_reproduce_one_draw rnd d (v : SimpleVirus.t) s :
  (exists c, basic_repro d v rnd s = Normal c (S s)) \/
  basic_repro d v rnd s = Raised NoChildException (S s).
Proof.
  unfold basic_repro. rewrite reproduce_eq. destruct (ge _ _); eauto.
Qed.

(** X13: a call to [Patient.update] that returns consumes one draw per
    particle of the old population (the survival tests, made first) and
    then one draw per survivor (the reproduction tests): the survivors
    are known after [getTotalPop] draws, and the call ends
    [length survivors] draws later. *)
Theorem Patient_update_draws
        (p : Patient.t) (rnd : Draws) (s : nat) (p' : Patient.t) (n s' : nat) :
  Patient.update p rnd s = Normal (p', n) s' ->
  exists surv,
    survival_loop SimpleVirus.doesClear (Patient.getViruses p) rnd s
    = Normal surv (s + Patient.getTotalPop p)%nat /\
    s' = (s + Patient.getTotalPop p + length surv)%nat.
Proof.
  intros Hu.
  destruct (Patient_update_inv p rnd s Hu) as (fmax & surv & s1 & off & _ & _ & Hs & Hr & _ & _).
  pose proof (survival_loop_draws SimpleVirus.doesClear rnd
                (SimpleVirus_doesClear_one_draw rnd) _ _ _ _ Hs) as ->.
  exists surv. split; [exact Hs|].
  eapply reproduction_loop_draws; [|exact Hr].
  intros v t. apply SimpleVirus_reproduce_one_draw.
Qed.

(** X14: with maxPop = 0 both [update] methods raise
    [ZeroDivisionError], also for an empty population, and they do so
    after the survival tests have consumed one draw per particle. *)
Theorem update_zero_maxPop :
  (forall (p : Patient.t) rnd s,
      Patient.getMaxPop p = 0%Z ->
      Patient.update p rnd s
      = Raised ZeroDivisionError (s + Patient.getTotalPop p)%nat) /\
  (forall (p : TreatedPatient.t) rnd s,
      TreatedPatient.getMaxPop p = 0%Z ->
      TreatedPatient.update p rnd s
      = Raised ZeroDivisionError (s + TreatedPatient.getTotalPop p)%nat).
Proof.
  destruct float_of_int_0 as (f0 & E0 & H0).
  split; intros p rnd s Hz.
  - destruct (survival_loop_total SimpleVirus.doesClear rnd
                (SimpleVirus_doesClear_total rnd) (Patient.viruses p) s)
      as (surv & s1 & Hs).
    pose proof (survival_loop_draws SimpleVirus.doesClear rnd
                  (SimpleVirus_doesClear_one_draw rnd) _ _ _ _ Hs) as ->.
    unfold Patient.update, Patient.getViruses. rewrite (bind_Normal _ Hs), Hz.
    now rewrite (bind_Raised _ (float_div_zero (length surv) 0 f0 rnd _ E0 H0)).
  - destruct (survival_loop_total ResistantVirus.doesClear rnd
                (ResistantVirus_doesClear_total rnd) (TreatedPatient.viruses p) s)
      as (surv & s1 & Hs).
    pose proof (survival_loop_draws ResistantVirus.doesClear rnd
                  (ResistantVirus_doesClear_one_draw rnd) _ _ _ _ Hs) as ->.
    unfold TreatedPatient.update, TreatedPatient.getViruses.
    rewrite (bind_Normal _ Hs), Hz.
    now rewrite (bind_Raised _ (float_div_zero (length surv) 0 f0 rnd _ E0 H0)).
Qed.

(** X15: when [update] returns, the returned number is the
    [getTotalPop] of the host it leaves, and it is at most twice the
    [getTotalPop] of the host it started from.  Both for [Patient] and
    for [TreatedPatient]. *)
Theorem update_total_population :
  (forall (p : Patient.t) rnd s p' n s',
      Patient.update p rnd s = Normal (p', n) s' ->
      n = Patient.getTotalPop p' /\ (n <= 2 * Patient.getTotalPop p)%nat) /\
  (forall (p : TreatedPatient.t) rnd s p' n s',
      TreatedPatient.update p rnd s = Normal (p', n) s' ->
      n = TreatedPatient.getTotalPop p' /\ (n <= 2 * TreatedPatient.getTotalPop p)%nat).
Proof.
  split; intros p rnd s p' n s' Hu.
  - destruct (Patient_update_inv p rnd s Hu) as (fmax & surv & s1 & off & _ & _ & Hs & Hr & -> & ->).
    split; [reflexivity|].
    apply (survival_loop_length SimpleVirus.doesClear rnd
             (SimpleVirus_doesClear_one_draw rnd)) in Hs.
    apply reproduction_loop_length in Hr;
      [|intros v s0; apply SimpleVirus_reproduce_total].
    unfold Patient.getTotalPop. rewrite length_app. lia.
  - destruct (TreatedPatient_update_inv p rnd s Hu)
      as (fmax & surv & s1 & off & _ & _ & Hs & Hr & -> & ->).
    split; [reflexivity|].
    apply (survival_loop_length ResistantVirus.doesClear rnd
             (ResistantVirus_doesClear_one_draw rnd)) in Hs.
    apply reproduction_loop_length in Hr;
      [|intros v s0; apply ResistantVirus_reproduce_total].
    unfold TreatedPatient.getTotalPop. rewrite length_app. lia.
Qed.



(** The density is at least 1 once the survivors fill the capacity. *)
Lemma popDensity_saturated {V} (surv : list V) (maxPop : Z) fmax :
  (0 < maxPop)%Z -> (maxPop <= Z.of_nat (length surv))%Z ->
  float_of_int maxPop = Some fmax ->
  1 <= popDensity_of surv fmax.
Proof.
  intros Hpos Hle Hf. unfold popDensity_of.
  exact (fdiv_ge_one (length surv) maxPop fmax Hpos Hle Hf).
Qed.

Lemma birth_probability_saturated (mb d : Q) :
  0 <= mb -> 1 <= d -> birth_probability mb d <= 0.
Proof.
  intros Hmb Hd. unfold birth_probability.
  apply fmul_sign; [exact Hmb | now apply fsub_one_ge].
Qed.

(** X18: a saturated host does not grow.  With draws strictly between 0
    and 1, maxPop > 0, no negative maxBirthProb and at least maxPop
    survivors, [update] produces no offspring: the new population is the
    list of survivors and the returned number is its length.  Both for
    [Patient] and for [TreatedPatient]. *)
Theorem update_saturated :
  (forall (p : Patient.t) rnd s p' n s' surv s1,
      positive_draws rnd ->
      (0 < Patient.getMaxPop p)%Z ->
      (forall v, In v (Patient.getViruses p) -> 0 <= SimpleVirus.getMaxBirthProb v) ->
      Patient.update p rnd s = Normal (p', n) s' ->
      survival_loop SimpleVirus.doesClear (Patient.getViruses p) rnd s = Normal surv s1 ->
      (Patient.getMaxPop p <= Z.of_nat (length surv))%Z ->
      Patient.getViruses p' = surv /\ n = length surv) /\
  (forall (p : TreatedPatient.t) rnd s p' n s' surv s1,
      positive_draws rnd ->
      (0 < TreatedPatient.getMaxPop p)%Z ->
      (forall v, In v (TreatedPatient.getViruses p) ->
                 0 <= ResistantVirus.getMaxBirthProb v) ->
      TreatedPatient.update p rnd s = Normal (p', n) s' ->
      survival_loop ResistantVirus.doesClear (TreatedPatient.getViruses p) rnd s
      = Normal surv s1 ->
      (TreatedPatient.getMaxPop p <= Z.of_nat (length surv))%Z ->
      TreatedPatient.getViruses p' = surv /\ n = length surv).
Proof.
  split; intros p rnd s p' n s' surv s1 Hd Hpos Hmb Hu Hs Hfull.
  - destruct (Patient_update_inv p rnd s Hu)
      as (fmax & surv' & t1 & off & Hf & _ & Hs' & Hr & -> & ->).
    unfold Patient.getViruses in *. rewrite Hs in Hs'. injection Hs' as <- <-.
    pose proof (survival_loop_subseq SimpleVirus.doesClear rnd
                  (SimpleVirus_doesClear_total rnd) _ _ _ _ Hs) as Hsub.
    destruct (reproduction_loop_all_fail
                (basic_repro (popDensity_of surv fmax)) rnd surv s1)
      as (t2 & Hr').
    { intros v Hv t. exists (S t). unfold basic_repro.
      apply reproduce_never_positive_draw; [apply (Hd t)|].
      apply birth_probability_saturated.
      - apply Hmb. exact (subseq_In Hsub v Hv).
      - exact (popDensity_saturated surv _ fmax Hpos Hfull Hf). }
    rewrite Hr in Hr'. injection Hr' as -> ->. split; reflexivity.
  - destruct (TreatedPatient_update_inv p rnd s Hu)
      as (fmax & surv' & t1 & off & Hf & _ & Hs' & Hr & -> & ->).
    unfold TreatedPatient.getViruses in *. rewrite Hs in Hs'. injection Hs' as <- <-.
    pose proof (survival_loop_subseq ResistantVirus.doesClear rnd
                  (ResistantVirus_doesClear_total rnd) _ _ _ _ Hs) as Hsub.
    destruct (reproduction_loop_all_fail
                (gated_repro (TreatedPatient.presDrugs p)
                   (popDensity_of surv fmax)) rnd surv s1)
      as (t2 & Hr').
    { intros v Hv t. unfold gated_repro. rewrite ResistantVirus_reproduce_eq.
      destruct (ResistantVirus.resistant_loop v (TreatedPatient.presDrugs p) true);
        [|eauto].
      assert (E : ge (birth_probability (ResistantVirus.maxBirthProb v)
                        (popDensity_of surv fmax)) (rnd t) = false).
      { apply ge_false. destruct (Hd t) as [Hlo _].
        assert (Hp : birth_probability (ResistantVirus.maxBirthProb v)
                       (popDensity_of surv fmax) <= 0).
        { apply birth_probability_saturated.
          - apply (Hmb v). exact (subseq_In Hsub v Hv).
          - exact (popDensity_saturated surv _ fmax Hpos Hfull Hf). }
        lra. }
      rewrite E. eauto. }
    rewrite Hr in Hr'. injection Hr' as -> ->. split; reflexivity.
Qed.

Lemma SimpleVirus_offspring_eq rnd d (v c : SimpleVirus.t) t t1 :
  basic_repro d v rnd t = Normal c t1 -> c = v.
Proof.
  unfold basic_repro. rewrite reproduce_eq.
  destruct (ge _ _); [|discriminate].
  intros H. injection H as <- _. now destruct v.
Qed.

Lemma Patient_update_members (p : Patient.t) rnd s p' n s' :
  Patient.update p rnd s = Normal (p', n) s' ->
  forall v', In v' (Patient.viruses p') -> In v' (Patient.viruses p).
Proof.
  intros Hu v' Hv'.
  destruct (Patient_update_inv p rnd s Hu) as (fmax & surv & s1 & off & _ & _ & Hs & Hr & -> & _).
  pose proof (survival_loop_subseq SimpleVirus.doesClear rnd
                (SimpleVirus_doesClear_total rnd) _ _ _ _ Hs) as Hsub.
  cbn [Patient.viruses] in Hv'.
  apply in_app_or in Hv'. destruct Hv' as [Hoff|Hsurv].
  - destruct (reproduction_loop_parent
                (basic_repro (popDensity_of surv fmax)) rnd surv _ _ _
                (SimpleVirus_reproduce_total rnd _) Hr v' Hoff)
      as (v & t & t1 & Hv & Hc).
    apply SimpleVirus_offspring_eq in Hc. subst v'.
    exact (subseq_In Hsub v Hv).
  - exact (subseq_In Hsub v' Hsurv).
Qed.

(** X19: [Patient.update] introduces no new kind of particle: every
    particle of the population it leaves has the maxBirthProb and
    clearProb of some particle of the population it started from. *)
Theorem Patient_update_no_new_kind
        (p : Patient.t) (rnd : Draws) (s : nat) (p' : Patient.t) (n s' : nat) :
  Patient.update p rnd s = Normal (p', n) s' ->
  forall v', In v' (Patient.getViruses p') ->
  exists v, In v (Patient.getViruses p) /\
            SimpleVirus.getMaxBirthProb v' = SimpleVirus.getMaxBirthProb v /\
            SimpleVirus.getClearProb v' = SimpleVirus.getClearProb v.
Proof.
  intros Hu v' Hv'. exists v'.
  split; [exact (Patient_update_members p rnd s _ _ _ Hu v' Hv') | split; reflexivity].
Qed.


(** ** The simulation drivers *)

Lemma Patient_update_maxPop (p : Patient.t) rnd s p' n s' :
  Patient.update p rnd s = Normal (p', n) s' ->
  Patient.maxPop p' = Patient.maxPop p /\ n = Patient.getTotalPop p'.
Proof.
  intros Hu.
  destruct (Patient_update_inv p rnd s Hu) as (fmax & surv & s1 & off & _ & _ & _ & _ & -> & ->).
  split; reflexivity.
Qed.

Lemma Patient_trial_acc steps rnd : forall (p : Patient.t) acc s,
  Patient_trial steps p acc rnd s =
  match Patient_trial steps p [] rnd s with
  | Normal (p', counts) s' => Normal (p', acc ++ counts) s'
  | Raised e s' => Raised e s'
  end.
Proof.
  induction steps as [|k IH]; intros p acc s.
  - cbn. now rewrite app_nil_r.
  - cbn [Patient_trial]. unfold bind.
    destruct (Patient.update p rnd s) as [[p1 n] s1|e s1]; [|reflexivity].
    cbn [fst]. rewrite (IH p1 (acc ++ _)), (IH p1 ([] ++ _)).
    destruct (Patient_trial k p1 [] rnd s1) as [[p2 c] s2|e s2]; [|reflexivity].
    now rewrite <- app_assoc.
Qed.

Lemma Patient_trial_S steps rnd (p : Patient.t) s :
  Patient_trial (S steps) p [] rnd s =
  match Patient.update p rnd s with
  | Normal (p1, _) s1 =>
      match Patient_trial steps p1 [] rnd s1 with
      | Normal (p', counts) s' => Normal (p', Patient.getTotalPop p1 :: counts) s'
      | Raised e s' => Raised e s'
      end
  | Raised e s1 => Raised e s1
  end.
Proof.
  cbn [Patient_trial]. unfold bind.
  destruct (Patient.update p rnd s) as [[p1 n] s1|e s1]; [|reflexivity].
  cbn [fst]. now rewrite Patient_trial_acc.
Qed.

Lemma Patient_trial_add a b rnd : forall (p : Patient.t) s,
  Patient_trial (a + b) p [] rnd s =
  match Patient_trial a p [] rnd s with
  | Normal (p1, c1) s1 =>
      match Patient_trial b p1 [] rnd s1 with
      | Normal (p2, c2) s2 => Normal (p2, c1 ++ c2) s2
      | Raised e s2 => Raised e s2
      end
  | Raised e s1 => Raised e s1
  end.
Proof.
  induction a as [|a IH]; intros p s.
  - cbn. now destruct (Patient_trial b p [] rnd s) as [[p2 c2] s2|e s2].
  - cbn [Nat.add]. rewrite !Patient_trial_S.
    destruct (Patient.update p rnd s) as [[p1 n] s1|e s1]; [|reflexivity].
    rewrite IH.
    destruct (Patient_trial a p1 [] rnd s1) as [[p2 c2] s2|e s2]; [|reflexivity].
    now destruct (Patient_trial b p2 [] rnd s2) as [[p3 c3] s3|e s3].
Qed.

Lemma Patient_trial_length steps rnd : forall (p : Patient.t) s p' counts s',
  Patient_trial steps p [] rnd s = Normal (p', counts) s' ->
  length counts = steps /\ Patient.maxPop p' = Patient.maxPop p.
Proof.
  induction steps as [|k IH]; intros p s p' counts s' H.
  - cbn in H. injection H as <- <- <-. split; reflexivity.
  - rewrite Patient_trial_S in H.
    destruct (Patient.update p rnd s) as [[p1 n] s1|e s1] eqn:Hu; [|discriminate].
    destruct (Patient_trial k p1 [] rnd s1) as [[p2 c] s2|e s2] eqn:Ht; [|discriminate].
    injection H as <- <- <-.
    destruct (IH _ _ _ _ _ Ht) as [Hl Hm].
    destruct (Patient_update_maxPop p rnd s _ _ _ Hu) as [Hm1 _].
    split; [cbn; now rewrite Hl | congruence].
Qed.


Lemma Patient_trials_acc steps rnd k : forall (p : Patient.t) acc s,
  Patient_trials steps k p acc rnd s =
  match Patient_trials steps k p [] rnd s with
  | Normal (p', rows) s' => Normal (p', acc ++ rows) s'
  | Raised e s' => Raised e s'
  end.
Proof.
  induction k as [|k IH]; intros p acc s.
  - cbn. now rewrite app_nil_r.
  - cbn [Patient_trials]. unfold bind.
    destruct (Patient_trial steps p [] rnd s) as [[p1 c] s1|e s1]; [|reflexivity].
    cbn [fst snd]. rewrite (IH p1 (acc ++ _)), (IH p1 ([] ++ _)).
    destruct (Patient_trials steps k p1 [] rnd s1) as [[p2 r] s2|e s2]; [|reflexivity].
    now rewrite <- app_assoc.
Qed.

Lemma Patient_trials_S steps rnd k (p : Patient.t) s :
  Patient_trials steps (S k) p [] rnd s =
  match Patient_trial steps p [] rnd s with
  | Normal (p1, c) s1 =>
      match Patient_trials steps k p1 [] rnd s1 with
      | Normal (p', rows) s' => Normal (p', c :: rows) s'
      | Raised e s' => Raised e s'
      end
  | Raised e s1 => Raised e s1
  end.
Proof.
  cbn [Patient_trials]. unfold bind.
  destruct (Patient_trial steps p [] rnd s) as [[p1 c] s1|e s1]; [|reflexivity].
  cbn [fst snd]. now rewrite Patient_trials_acc.
Qed.


(** X21: in [simulationWithoutDrug] the trials share one patient: the
    rows recorded by [numTrials] trials of [steps] updates, put end to
    end, are the counts of a single run of [numTrials * steps] updates of
    the initial patient, ending in the same patient after the same
    draws; there are [numTrials] rows of [steps] counts each. *)
Theorem Patient_trials_one_run
        (steps numTrials : nat) (p : Patient.t) (rnd : Draws) (s : nat)
        (p' : Patient.t) (rows : list (list nat)) (s' : nat) :
  Patient_trials steps numTrials p [] rnd s = Normal (p', rows) s' ->
  Patient_trial (numTrials * steps) p [] rnd s = Normal (p', concat rows) s' /\
  length rows = numTrials /\
  Forall (fun row => length row = steps) rows.
Proof.
  revert p s p' rows s'.
  induction numTrials as [|k IH]; intros p s p' rows s' H.
  - cbn in H. injection H as <- <- <-. cbn.
    split; [reflexivity|]. split; [reflexivity | constructor].
  - rewrite Patient_trials_S in H.
    destruct (Patient_trial steps p [] rnd s) as [[p1 c] s1|e s1] eqn:Ht; [|discriminate].
    destruct (Patient_trials steps k p1 [] rnd s1) as [[p2 r] s2|e s2] eqn:Hk;
      [|discriminate].
    injection H as <- <- <-.
    destruct (IH _ _ _ _ _ Hk) as (Hrun & Hlen & Hall).
    cbn [Nat.mul]. rewrite Patient_trial_add, Ht, Hrun. cbn [concat length].
    split; [reflexivity|]. split; [now rewrite Hlen|].
    constructor; [|exact Hall].
    exact (proj1 (Patient_trial_length steps rnd p s _ _ _ Ht)).
Qed.






Lemma Patient_update_capacity (p : Patient.t) rnd s p' n s' (B : Z) :
  positive_draws rnd ->
  (0 < Patient.maxPop p)%Z ->
  (forall v, In v (Patient.viruses p) -> 0 <= SimpleVirus.maxBirthProb v) ->
  (2 * Patient.maxPop p <= B)%Z ->
  (Z.of_nat (length (Patient.viruses p)) <= B)%Z ->
  Patient.update p rnd s = Normal (p', n) s' ->
  (Z.of_nat (length (Patient.viruses p')) <= B)%Z.
Proof.
  intros Hd Hpos Hmb HB Hlen Hu.
  destruct (Patient_update_inv p rnd s Hu) as (fmax & surv & s1 & off & Hf & _ & Hs & Hr & -> & _).
  pose proof (survival_loop_subseq SimpleVirus.doesClear rnd
                (SimpleVirus_doesClear_total rnd) _ _ _ _ Hs) as Hsub.
  pose proof (survival_loop_length SimpleVirus.doesClear rnd
                (SimpleVirus_doesClear_one_draw rnd) _ _ _ _ Hs) as Hsl.
  cbn [Patient.viruses]. rewrite length_app.
  destruct (Z_le_gt_dec (Patient.maxPop p) (Z.of_nat (length surv))) as [Hfull|Hroom].
  - destruct (reproduction_loop_all_fail
                (basic_repro (popDensity_of surv fmax)) rnd surv s1)
      as (t2 & Hr').
    { intros v Hv t. exists (S t). unfold basic_repro.
      apply reproduce_never_positive_draw; [apply (Hd t)|].
      apply birth_probability_saturated.
      - apply Hmb. exact (subseq_In Hsub v Hv).
      - exact (popDensity_saturated surv _ fmax Hpos Hfull Hf). }
    rewrite Hr in Hr'. injection Hr' as -> ->. cbn [length]. lia.
  - apply reproduction_loop_length in Hr;
      [|intros v s0; apply SimpleVirus_reproduce_total].
    lia.
Qed.

(** X23: the population of an untreated patient stays bounded.  With
    draws strictly between 0 and 1, maxPop > 0 and no negative
    maxBirthProb, every count recorded during any number of successive
    updates is at most the larger of the initial population and twice
    maxPop. *)
Theorem Patient_trial_bounded
        (steps : nat) (p : Patient.t) (rnd : Draws) (s : nat)
        (p' : Patient.t) (counts : list nat) (s' : nat) :
  positive_draws rnd ->
  (0 < Patient.getMaxPop p)%Z ->
  (forall v, In v (Patient.getViruses p) -> 0 <= SimpleVirus.getMaxBirthProb v) ->
  Patient_trial steps p [] rnd s = Normal (p', counts) s' ->
  Forall (fun c => (Z.of_nat c <= Z.max (Z.of_nat (Patient.getTotalPop p))
                                        (2 * Patient.getMaxPop p))%Z) counts.
Proof.
  unfold Patient.getMaxPop, Patient.getViruses, Patient.getTotalPop,
    SimpleVirus.getMaxBirthProb.
  intros Hd Hpos Hmb H.
  set (B := Z.max (Z.of_nat (length (Patient.viruses p))) (2 * Patient.maxPop p)).
  assert (HB : (2 * Patient.maxPop p <= B)%Z) by (subst B; lia).
  assert (Hlen : (Z.of_nat (length (Patient.viruses p)) <= B)%Z) by (subst B; lia).
  clearbody B.
  revert p s p' counts s' Hpos Hmb HB Hlen H.
  induction steps as [|k IH]; intros p s p' counts s' Hpos Hmb HB Hlen H.
  - cbn in H. injection H as <- <- <-. constructor.
  - rewrite Patient_trial_S in H.
    destruct (Patient.update p rnd s) as [[p1 n] s1|e s1] eqn:Hu; [|discriminate].
    destruct (Patient_trial k p1 [] rnd s1) as [[p2 c] s2|e s2] eqn:Ht; [|discriminate].
    injection H as <- <- <-.
    destruct (Patient_update_maxPop p rnd s _ _ _ Hu) as [Hm _].
    pose proof (Patient_update_capacity p rnd s p1 n s1 B Hd Hpos Hmb HB Hlen Hu) as Hcap.
    constructor; [exact Hcap|].
    apply (IH p1 s1 p2 c s2); try rewrite Hm; try assumption.
    intros v Hv. apply Hmb. exact (Patient_update_members p rnd s _ _ _ Hu v Hv).
Qed.




Lemma TreatedPatient_update_fields (p : TreatedPatient.t) rnd s p' n s' :
  TreatedPatient.update p rnd s = Normal (p', n) s' ->
  TreatedPatient.maxPop p' = TreatedPatient.maxPop p /\
  TreatedPatient.presDrugs p' = TreatedPatient.presDrugs p /\
  n = TreatedPatient.getTotalPop p'.
Proof.
  intros Hu.
  destruct (TreatedPatient_update_inv p rnd s Hu)
    as (fmax & surv & s1 & off & _ & _ & _ & _ & -> & ->).
  repeat split; reflexivity.
Qed.



Lemma TreatedPatient_trial_acc res rnd todo : forall j (p : TreatedPatient.t) vc rv s,
  TreatedPatient_trial res todo j p vc rv rnd s =
  match TreatedPatient_trial res todo j p [] [] rnd s with
  | Normal (p', (counts, rcounts)) s' => Normal (p', (vc ++ counts, rv ++ rcounts)) s'
  | Raised e s' => Raised e s'
  end.
Proof.
  induction todo as [|k IH]; intros j p vc rv s.
  - cbn. now rewrite !app_nil_r.
  - cbn [TreatedPatient_trial]. unfold bind.
    destruct (TreatedPatient.update (prescribe_at_50 res j p) rnd s)
      as [[p1 n] s1|e s1]; [|reflexivity].
    cbn [fst]. rewrite (IH (S j) p1 (vc ++ _) (rv ++ _)), (IH (S j) p1 ([] ++ _) ([] ++ _)).
    destruct (TreatedPatient_trial res k (S j) p1 [] [] rnd s1)
      as [[p2 [c r]] s2|e s2]; [|reflexivity].
    now rewrite <- !app_assoc.
Qed.

Lemma TreatedPatient_trial_S res rnd todo j (p : TreatedPatient.t) s :
  TreatedPatient_trial res (S todo) j p [] [] rnd s =
  match TreatedPatient.update (prescribe_at_50 res j p) rnd s with
  | Normal (p1, _) s1 =>
      match TreatedPatient_trial res todo (S j) p1 [] [] rnd s1 with
      | Normal (p', (counts, rcounts)) s' =>
          Normal (p', (TreatedPatient.getTotalPop p1 :: counts,
                       TreatedPatient.getResistPop p1 (Dict.keys res) :: rcounts)) s'
      | Raised e s' => Raised e s'
      end
  | Raised e s1 => Raised e s1
  end.
Proof.
  cbn [TreatedPatient_trial]. unfold bind.
  destruct (TreatedPatient.update (prescribe_at_50 res j p) rnd s)
    as [[p1 n] s1|e s1]; [|reflexivity].
  cbn [fst]. now rewrite TreatedPatient_trial_acc.
Qed.

(** X25: in a trial of [simulationWithDrug] the two recorded series have
    one entry per update, and at every update the recorded count of
    resistant particles is at most the recorded total. *)
Theorem TreatedPatient_trial_series
        (resistances : Dict.t) (steps j : nat) (p : TreatedPatient.t)
        (rnd : Draws) (s : nat)
        (p' : TreatedPatient.t) (virus_count res_virus : list nat) (s' : nat) :
  TreatedPatient_trial resistances steps j p [] [] rnd s
  = Normal (p', (virus_count, res_virus)) s' ->
  length virus_count = steps /\
  length res_virus = steps /\
  Forall2 le res_virus virus_count.
Proof.
  revert j p s p' virus_count res_virus s'.
  induction steps as [|k IH]; intros j p s p' vc rv s' H.
  - cbn in H. injection H as <- <- <- <-. repeat split. constructor.
  - rewrite TreatedPatient_trial_S in H.
    destruct (TreatedPatient.update (prescribe_at_50 resistances j p) rnd s)
      as [[p1 n] s1|e s1]; [|discriminate].
    destruct (TreatedPatient_trial resistances k (S j) p1 [] [] rnd s1)
      as [[p2 [c r]] s2|e s2] eqn:Ht; [|discriminate].
    injection H as <- <- <- <-.
    destruct (IH _ _ _ _ _ _ _ Ht) as (Hc & Hr & Hle).
    cbn [length]. split; [now rewrite Hc|]. split; [now rewrite Hr|].
    constructor; [|exact Hle].
    unfold TreatedPatient.getResistPop, TreatedPatient.getTotalPop.
    rewrite getResistPop_fold. cbn [Nat.add]. apply filter_length_le.
Qed.

Lemma prescriptions_fold_presDrugs ds : forall p q : TreatedPatient.t,
  TreatedPatient.presDrugs p = TreatedPatient.presDrugs q ->
  TreatedPatient.presDrugs (fold_left TreatedPatient.addPrescription ds p)
  = TreatedPatient.presDrugs (fold_left TreatedPatient.addPrescription ds q).
Proof.
  induction ds as [|d rest IH]; intros p q E; cbn; [exact E|].
  apply IH.
  destruct (addPrescription_fields p d) as (_ & _ & ->).
  destruct (addPrescription_fields q d) as (_ & _ & ->).
  now rewrite E.
Qed.

Lemma TreatedPatient_trial_prescriptions res rnd todo :
  forall j (p : TreatedPatient.t) s p' series s',
  TreatedPatient_trial res todo j p [] [] rnd s = Normal (p', series) s' ->
  TreatedPatient.presDrugs p' =
  if (j <=? 50)%nat && (50 <? j + todo)%nat
  then TreatedPatient.presDrugs
         (fold_left TreatedPatient.addPrescription (Dict.keys res) p)
  else TreatedPatient.presDrugs p.
Proof.
  induction todo as [|k IH]; intros j p s p' series s' H.
  - cbn in H. injection H as <- _ _.
    destruct (Nat.leb_spec j 50), (Nat.ltb_spec 50 (j + 0)); cbn [andb];
      try reflexivity; lia.
  - rewrite TreatedPatient_trial_S in H.
    destruct (TreatedPatient.update (prescribe_at_50 res j p) rnd s)
      as [[p1 n] s1|e s1] eqn:Hu; [|discriminate].
    destruct (TreatedPatient_trial res k (S j) p1 [] [] rnd s1)
      as [[p2 [c r]] s2|e s2] eqn:Ht; [|discriminate].
    injection H as <- _ _.
    destruct (TreatedPatient_update_fields _ rnd s _ _ _ Hu) as (_ & Hp1 & _).
    rewrite (IH _ _ _ _ _ _ Ht).
    unfold prescribe_at_50 in Hp1.
    destruct (Nat.eqb_spec j 50) as [->|Hne].
    + cbn [Nat.leb]. destruct (Nat.ltb_spec 50 (50 + S k)); [|lia].
      destruct (Nat.leb_spec 51 50); [lia|]. cbn [andb]. exact Hp1.
    + destruct (Nat.leb_spec j 50), (Nat.leb_spec (S j) 50),
        (Nat.ltb_spec 50 (j + S k)), (Nat.ltb_spec 50 (S j + k));
        cbn [andb]; try lia; try exact Hp1.
      now apply prescriptions_fold_presDrugs.
Qed.

(** X26: in a trial of [simulationWithDrug] that starts from a freshly
    constructed host, the host has no prescription after any number of
    updates up to 50, and after more than 50 updates its prescriptions
    are, without repetition, exactly the keys of [resistances]: the drugs
    are prescribed just before the update of step 50. *)
Theorem TreatedPatient_trial_prescribes_at_50
        (resistances : Dict.t) (steps : nat)
        (viruses : list ResistantVirus.t) (maxPop : Z)
        (rnd : Draws) (s : nat)
        (p' : TreatedPatient.t) (series : list nat * list nat) (s' : nat) :
  TreatedPatient_trial resistances steps 0 (TreatedPatient.new viruses maxPop) [] [] rnd s
  = Normal (p', series) s' ->
  ((steps <= 50)%nat -> TreatedPatient.getPrescriptions p' = []) /\
  ((50 < steps)%nat ->
   NoDup (TreatedPatient.getPrescriptions p') /\
   forall d, In d (TreatedPatient.getPrescriptions p') <-> In d (Dict.keys resistances)).
Proof.
  intros H. apply TreatedPatient_trial_prescriptions in H.
  unfold TreatedPatient.getPrescriptions. cbn [Nat.leb Nat.add andb] in H.
  split; intros Hs.
  - destruct (Nat.ltb_spec 50 steps); [lia|]. exact H.
  - destruct (Nat.ltb_spec 50 steps); [|lia]. rewrite H.
    destruct (prescriptions_fold (Dict.keys resistances)
                (TreatedPatient.new viruses maxPop)) as (Hnd & Hin & _ & _);
      [constructor|].
    split; [exact Hnd|]. intros d. rewrite Hin. cbn. tauto.
Qed.





(** ** [ResistantVirus] against its base class *)

(** X28: when no active drug has an explicit [False] entry, the
    overriding [reproduce] decides as the inherited one would: on the
    same draw [SimpleVirus.reproduce] applied to the particle's base
    fields returns the base fields of the offspring, or raises the same
    exception at the same position. *)
Theorem reproduce_extends_base
        (v : ResistantVirus.t) (popDensity : Q) (activeDrugs : list string)
        (rnd : Draws) (s : nat) :
  (forall d, In d activeDrugs -> ResistantVirus.isResistantTo v d <> Some false) ->
  SimpleVirus.reproduce (ResistantVirus.base v) popDensity rnd s =
  match ResistantVirus.reproduce v popDensity activeDrugs rnd s with
  | Normal child _ => Normal (ResistantVirus.base child) (S s)
  | Raised e s1 => Raised e s1
  end.
Proof.
  intros Hgate. apply resistant_loop_true_iff in Hgate.
  rewrite reproduce_eq, ResistantVirus_reproduce_eq, Hgate.
  unfold ResistantVirus.maxBirthProb.
  destruct (ge _ _); [|reflexivity].
  unfold ResistantVirus.mutation_loop.
  destruct (mutation_loop_from_total rnd v (ResistantVirus.resistance v) [] (S s))
    as (r & ->).
  reflexivity.
Qed.

Lemma survival_loop_base rnd (vs : list ResistantVirus.t) : forall s,
  survival_loop SimpleVirus.doesClear (map ResistantVirus.base vs) rnd s =
  match survival_loop ResistantVirus.doesClear vs rnd s with
  | Normal surv s1 => Normal (map ResistantVirus.base surv) s1
  | Raised e s1 => Raised e s1
  end.
Proof.
  induction vs as [|v rest IH]; intros s; [reflexivity|].
  destruct (SimpleVirus_doesClear_one_draw rnd (ResistantVirus.base v) s) as (b & Hb).
  cbn [map].
  rewrite (survival_loop_cons SimpleVirus.doesClear rnd
             (SimpleVirus_doesClear_total rnd) _ Hb).
  rewrite (survival_loop_cons ResistantVirus.doesClear rnd
             (ResistantVirus_doesClear_total rnd) rest (v := v) Hb).
  rewrite IH.
  destruct (survival_loop ResistantVirus.doesClear rest rnd (S s)) as [l t|e t];
    [|reflexivity].
  now destruct b.
Qed.

Lemma gated_repro_no_entry rnd drugs d (v : ResistantVirus.t) s :
  ResistantVirus.resistance v = [] ->
  (exists c, gated_repro drugs d v rnd s = Normal c (S s) /\
             ResistantVirus.resistance c = [] /\
             basic_repro d (ResistantVirus.base v) rnd s
             = Normal (ResistantVirus.base c) (S s)) \/
  (gated_repro drugs d v rnd s = Raised NoChildException (S s) /\
   basic_repro d (ResistantVirus.base v) rnd s = Raised NoChildException (S s)).
Proof.
  intros Hres. unfold gated_repro, basic_repro.
  rewrite reproduce_eq, ResistantVirus_reproduce_eq.
  assert (Hgate : ResistantVirus.resistant_loop v drugs true = true).
  { apply resistant_loop_true_iff. intros x _.
    unfold ResistantVirus.isResistantTo, ResistantVirus.getResistances.
    rewrite Hres. discriminate. }
  rewrite Hgate. unfold ResistantVirus.maxBirthProb, ResistantVirus.mutation_loop.
  rewrite Hres. cbn [for_each]. unfold ret.
  destruct (ge _ _).
  - left. eexists. repeat split.
  - right. split; reflexivity.
Qed.

Lemma reproduction_loop_base rnd drugs d (vs : list ResistantVirus.t) : forall s,
  (forall v, In v vs -> ResistantVirus.resistance v = []) ->
  exists offspring s1,
    reproduction_loop (gated_repro drugs d) vs rnd s = Normal offspring s1 /\
    reproduction_loop (basic_repro d) (map ResistantVirus.base vs) rnd s
    = Normal (map ResistantVirus.base offspring) s1 /\
    (forall c, In c offspring -> ResistantVirus.resistance c = []).
Proof.
  induction vs as [|v rest IH]; intros s Hall.
  - exists [], s. repeat split. intros c [].
  - destruct (IH (S s)) as (off & s1 & Hg & Hb & Hoff);
      [intros w Hw; apply Hall; now right|].
    cbn [map].
    destruct (gated_repro_no_entry rnd drugs d v s (Hall v (or_introl eq_refl)))
      as [(c & Hc & Hcres & Hcb)|[Hc Hcb]].
    + rewrite (reproduction_loop_child (gated_repro drugs d) rnd
                 (ResistantVirus_reproduce_total rnd drugs d) rest Hc).
      rewrite (reproduction_loop_child (basic_repro d) rnd
                 (SimpleVirus_reproduce_total rnd d) _ Hcb).
      rewrite Hg, Hb. exists (c :: off), s1. repeat split.
      intros c' [<-|Hin]; [exact Hcres | now apply Hoff].
    + unfold reproduction_loop.
      rewrite (reproduction_step_skip (gated_repro drugs d) rnd rest [] Hc).
      rewrite (reproduction_step_skip (basic_repro d) rnd _ [] Hcb).
      exists off, s1. repeat split; assumption.
Qed.

(** X29: a treated host whose particles have empty resistance
    dictionaries evolves, whatever is prescribed, exactly as the
    untreated host of the same particles: on the same draws
    [Patient.update] returns the same number after the same draws and
    leaves the same population, or raises the same exception at the same
    position. *)
Theorem update_without_resistance_entries
        (p : TreatedPatient.t) (rnd : Draws) (s : nat) :
  (forall v, In v (TreatedPatient.getViruses p) -> ResistantVirus.getResistances v = []) ->
  Patient.update (as_Patient p) rnd s =
  match TreatedPatient.update p rnd s with
  | Normal (p', n) s' => Normal (as_Patient p', n) s'
  | Raised e s' => Raised e s'
  end.
Proof.
  unfold TreatedPatient.getViruses, ResistantVirus.getResistances. intros Hall.
  destruct (survival_loop_total ResistantVirus.doesClear rnd
              (ResistantVirus_doesClear_total rnd) (TreatedPatient.viruses p) s)
    as (surv & s1 & Hs).
  pose proof (survival_loop_base rnd (TreatedPatient.viruses p) s) as Hsb.
  rewrite Hs in Hsb.
  pose proof (survival_loop_subseq ResistantVirus.doesClear rnd
                (ResistantVirus_doesClear_total rnd) _ _ _ _ Hs) as Hsub.
  unfold Patient.update, TreatedPatient.update, as_Patient,
    Patient.getViruses, Patient.getMaxPop,
    TreatedPatient.getViruses, TreatedPatient.getMaxPop, TreatedPatient.getPrescriptions.
  cbn [Patient.viruses Patient.maxPop].
  rewrite (bind_Normal _ Hsb), (bind_Normal _ Hs), length_map.
  unfold float_div.
  destruct (float_of_int (TreatedPatient.maxPop p)) as [fmax|]; [|reflexivity].
  destruct (Qeq_bool fmax 0); [reflexivity|].
  unfold bind at 1 3. unfold ret at 1 3.
  set (d := fdiv (float_of_len (length surv)) fmax).
  destruct (reproduction_loop_base rnd (TreatedPatient.presDrugs p) d surv s1)
    as (off & s2 & Hg & Hb & _).
  { intros v Hv. apply Hall. exact (subseq_In Hsub v Hv). }
  unfold gated_repro in Hg. unfold basic_repro in Hb.
  rewrite (bind_Normal _ Hb), (bind_Normal _ Hg).
  cbv [ret]. cbn [Patient.viruses TreatedPatient.viruses TreatedPatient.maxPop].
  now rewrite map_app, !length_app, !length_map.
Qed.

End Theory.

(* ------------------------------------------------------------------ *)
(** * Concrete runs *)

#[local] Existing Instance exact_arith.

(** Arithmetic without rounding error has the laws the proofs use. *)
Lemma exact_arith_laws : FloatLaws exact_arith.
Proof.
  constructor; cbn [fsub fmul fdiv float_of_int float_of_len exact_arith].
  - intros x y H. lra.
  - intros x y H. lra.
  - intros d H. lra.
  - intros a b Ha Hb.
    setoid_replace (a * b) with (- (a * - b)) by ring.
    assert (H : 0 <= a * - b) by (apply Qmult_le_0_compat; lra).
    lra.
  - exists (inject_Z 0). split; reflexivity.
  - intros z f H Hf.
    destruct (Z.abs z <? 2 ^ 1024 - 2 ^ 970)%Z; [|discriminate].
    injection H as <-. unfold Qeq in Hf. cbn in Hf. lia.
  - intros n m fm Hpos Hle H.
    destruct (Z.abs m <? 2 ^ 1024 - 2 ^ 970)%Z; [|discriminate].
    injection H as <-.
    apply Qle_shift_div_l.
    + replace 0 with (inject_Z 0) by reflexivity. now rewrite <- Zlt_Qlt.
    + rewrite Qmult_1_l. now rewrite <- Zle_Qle.
Qed.

#[local] Existing Instance exact_arith_laws.

(** C1, as stated, fails: a parent resistant to "X" with mutProb = 1
    reproduces (density 0, no active drug, every draw 1/2) and its
    offspring is not resistant to "X": the test
    [(1 - self.mutProb) > random.random()] is [0 > 0.5]. *)
Lemma mutProb_one_offspring_not_all_resistant :
  unit_draws half_draws /\
  ResistantVirus.mutProb virus_X_resistant == 1 /\
  ~ (forall child s',
       ResistantVirus.reproduce virus_X_resistant 0 [] half_draws 0%nat = Normal child s' ->
       forall k, In k (Dict.keys (ResistantVirus.resistance virus_X_resistant)) ->
                 ResistantVirus.isResistantTo child k = Some true).
Proof.
  split; [exact half_draws_unit|]. split; [reflexivity|].
  intros H.
  specialize (H (ResistantVirus.new 1 0 [("X"%string, false)] 1) 2%nat eq_refl
                "X"%string (or_introl eq_refl)).
  discriminate H.
Qed.

Lemma mutProb_one_offspring_negates_parent_witness :
  Dict.keys (ResistantVirus.resistance (ResistantVirus.new 1 0 [("X"%string, false)] 1))
  = Dict.keys (ResistantVirus.resistance virus_X_resistant) /\
  forall k b,
    ResistantVirus.isResistantTo virus_X_resistant k = Some b ->
    ResistantVirus.isResistantTo (ResistantVirus.new 1 0 [("X"%string, false)] 1) k
    = Some (negb b).
Proof.
  apply (@mutProb_one_offspring_negates_parent exact_arith exact_arith_laws
           half_draws virus_X_resistant 0 [] 0%nat
           (ResistantVirus.new 1 0 [("X"%string, false)] 1) 2%nat).
  - exact half_draws_unit.
  - unfold Dict.wf. cbn. constructor; [intros [] | constructor].
  - reflexivity.
  - reflexivity.
Defined.

(** C2: at the input ResistantVirus(1, 0, {}, 0).reproduce(0, ["X"]) with
    the draw 1/2 the code returns an offspring, although the particle is
    not resistant to the active drug "X" ([isResistantTo] does not return
    True, and [getResistPop(["X"])] does not count it). *)
Theorem reproduce_with_unlisted_active_drug :
  In "X"%string ["X"%string] /\
  ResistantVirus.isResistantTo virus_no_entry "X" <> Some true /\
  TreatedPatient.getResistPop
    (TreatedPatient.new' [virus_no_entry] 10 ["X"%string]) ["X"%string] = 0%nat /\
  ResistantVirus.reproduce virus_no_entry 0 ["X"%string] half_draws 0%nat
  = Normal (ResistantVirus.new 1 0 [] 0) 1.
Proof.
  split; [now left|]. split; [discriminate|]. split; reflexivity.
Qed.

(** C4: at SimpleVirus(0.1, 0).doesClear() with the draw 0.0 the code
    returns True, since [0 >= 0.0]. *)
Theorem doesClear_zero_prob_zero_draw :
  unit_draws zero_draws /\
  SimpleVirus.clearProb (SimpleVirus.new (1 # 10) 0) == 0 /\
  SimpleVirus.doesClear (SimpleVirus.new (1 # 10) 0) zero_draws 0%nat = Normal true 1.
Proof.
  split; [exact zero_draws_unit|]. split; reflexivity.
Qed.

(** C5: at SimpleVirus(0, 0.1).reproduce(0.5) with the draw 0.0 the code
    returns an offspring, since [0 * 0.5 >= 0.0]. *)
Theorem reproduce_zero_birth_zero_draw :
  unit_draws zero_draws /\
  SimpleVirus.maxBirthProb (SimpleVirus.new 0 (1 # 10)) == 0 /\
  SimpleVirus.reproduce (SimpleVirus.new 0 (1 # 10)) (1 # 2) zero_draws 0%nat
  = Normal (SimpleVirus.new 0 (1 # 10)) 1.
Proof.
  split; [exact zero_draws_unit|]. split; reflexivity.
Qed.

(** C6: at SimpleVirus(1, 0).reproduce(1.0) with the draw 0.0 the code
    returns an offspring, since [1 * (1 - 1.0) >= 0.0]. *)
Theorem reproduce_full_density_zero_draw :
  unit_draws zero_draws /\
  1 <= 1 /\
  SimpleVirus.reproduce (SimpleVirus.new 1 0) 1 zero_draws 0%nat
  = Normal (SimpleVirus.new 1 0) 1.
Proof.
  split; [exact zero_draws_unit|]. split; [lra | reflexivity].
Qed.

Lemma update_three_phases_witness :
  (exists p' n s', Patient.update patient_ex half_draws 0%nat = Normal (p', n) s') /\
  advanceTimeStep SimpleVirus.doesClear basic_repro half_draws
    (Patient.viruses patient_ex) (Patient.maxPop patient_ex) 0%nat
    [SimpleVirus.new 1 0; SimpleVirus.new 1 0] 2%nat 3%nat /\
  (exists p' n s', TreatedPatient.update treated_ex half_draws 0%nat = Normal (p', n) s') /\
  advanceTimeStep ResistantVirus.doesClear
    (gated_repro (TreatedPatient.presDrugs treated_ex)) half_draws
    (TreatedPatient.viruses treated_ex) (TreatedPatient.maxPop treated_ex) 0%nat
    (TreatedPatient.viruses treated_ex) 3%nat 5%nat.
Proof.
  split; [|split; [|split]].
  - apply (proj1 (proj1 update_three_phases patient_ex half_draws 0%nat)).
    + cbn. discriminate.
    + unfold converts. vm_compute. discriminate.
  - apply (proj2 (proj1 update_three_phases patient_ex half_draws 0%nat)
             (Patient.new [SimpleVirus.new 1 0; SimpleVirus.new 1 0] 4) 2%nat 3%nat).
    vm_compute. reflexivity.
  - apply (proj1 (proj2 update_three_phases treated_ex half_draws 0%nat)).
    + cbn. discriminate.
    + unfold converts. vm_compute. discriminate.
  - apply (proj2 (proj2 update_three_phases treated_ex half_draws 0%nat)
             treated_ex 3%nat 5%nat).
    vm_compute. reflexivity.
Defined.

Lemma NoChild_does_not_abort_step_witness :
  (exists fmax surv s1 offspring p' n s',
      float_of_int (Patient.maxPop patient_ex) = Some fmax /\
      survival_loop SimpleVirus.doesClear (Patient.viruses patient_ex) half_draws 0%nat
      = Normal surv s1 /\
      attempts basic_repro half_draws (popDensity_of surv fmax) surv s1 offspring s' /\
      Patient.update patient_ex half_draws 0%nat = Normal (p', n) s' /\
      Patient.viruses p' = offspring ++ surv /\
      (length offspring <= length surv)%nat) /\
  (exists fmax surv s1 offspring p' n s',
      float_of_int (TreatedPatient.maxPop treated_ex) = Some fmax /\
      survival_loop ResistantVirus.doesClear (TreatedPatient.viruses treated_ex)
        half_draws 0%nat = Normal surv s1 /\
      attempts (gated_repro (TreatedPatient.presDrugs treated_ex)) half_draws
               (popDensity_of surv fmax) surv s1 offspring s' /\
      TreatedPatient.update treated_ex half_draws 0%nat = Normal (p', n) s' /\
      TreatedPatient.viruses p' = offspring ++ surv /\
      (length offspring <= length surv)%nat) /\
  reproduction_loop (basic_repro 1) [SimpleVirus.new 1 0; SimpleVirus.new 1 0]
    half_draws 0%nat
  = reproduction_loop (basic_repro 1) [SimpleVirus.new 1 0] half_draws 1%nat /\
  reproduction_loop (gated_repro ["X"%string] 0)
    [ResistantVirus.new 1 0 [("X"%string, false)] 0; virus_no_entry] half_draws 0%nat
  = reproduction_loop (gated_repro ["X"%string] 0) [virus_no_entry] half_draws 0%nat.
Proof.
  split; [|split; [|split]].
  - apply (proj1 NoChild_does_not_abort_step patient_ex half_draws 0%nat).
    + cbn. discriminate.
    + unfold converts. vm_compute. discriminate.
  - apply (proj1 (proj2 (proj2 (proj2 (proj2 NoChild_does_not_abort_step))))
             treated_ex half_draws 0%nat).
    + cbn. discriminate.
    + unfold converts. vm_compute. discriminate.
  - apply (proj1 (proj2 (proj2 NoChild_does_not_abort_step))
             1 (SimpleVirus.new 1 0) [SimpleVirus.new 1 0] half_draws 0%nat 1%nat).
    vm_compute. reflexivity.
  - apply (proj1 (proj2 (proj2 (proj2 (proj2 (proj2 (proj2 NoChild_does_not_abort_step))))))
             ["X"%string] 0 (ResistantVirus.new 1 0 [("X"%string, false)] 0)
             [virus_no_entry] half_draws 0%nat 0%nat).
    vm_compute. reflexivity.
Defined.

Lemma unlisted_drug_does_not_block_witness :
  ResistantVirus.isResistantTo virus_X_resistant "Y" = None /\
  (forall activeDrugs,
      ResistantVirus.resistant_loop virus_X_resistant activeDrugs true = false <->
      exists d', In d' activeDrugs /\
                 ResistantVirus.isResistantTo virus_X_resistant d' = Some false) /\
  (forall popDensity activeDrugs rnd s,
      ResistantVirus.reproduce virus_X_resistant popDensity activeDrugs rnd s
      = ResistantVirus.reproduce virus_X_resistant popDensity
          (remove string_dec "Y"%string activeDrugs) rnd s) /\
  (forall popDensity rnd s,
      rnd s <= birth_probability (ResistantVirus.maxBirthProb virus_X_resistant) popDensity ->
      exists child s',
        ResistantVirus.reproduce virus_X_resistant popDensity ["Y"%string] rnd s
        = Normal child s').
Proof.
  apply (unlisted_drug_does_not_block virus_X_resistant "Y"%string).
  cbn. intros [H|[]]. discriminate H.
Defined.

Lemma update_at_most_doubles_witness :
  ((2 <= 2 * length [SimpleVirus.new 1 0])%nat /\
   2%nat = length (Patient.viruses
                     (Patient.new [SimpleVirus.new 1 0; SimpleVirus.new 1 0] 4))) /\
  ((3 <= 2 * length (TreatedPatient.viruses treated_ex))%nat /\
   3%nat = length (TreatedPatient.viruses treated_ex)).
Proof.
  split.
  - apply (proj1 update_at_most_doubles patient_ex half_draws 0%nat
             (Patient.new [SimpleVirus.new 1 0; SimpleVirus.new 1 0] 4)
             2%nat 3%nat [SimpleVirus.new 1 0] 2%nat);
      vm_compute; reflexivity.
  - apply (proj2 update_at_most_doubles treated_ex half_draws 0%nat
             treated_ex 3%nat 5%nat (TreatedPatient.viruses treated_ex) 3%nat);
      vm_compute; reflexivity.
Defined.

Lemma update_frame_witness :
  (Patient.maxPop (Patient.new [SimpleVirus.new 1 0; SimpleVirus.new 1 0] 4)
   = Patient.maxPop patient_ex /\
   exists surv s1 offspring,
     survival_loop SimpleVirus.doesClear (Patient.viruses patient_ex) half_draws 0%nat
     = Normal surv s1 /\
     subseq surv (Patient.viruses patient_ex) /\
     Patient.viruses (Patient.new [SimpleVirus.new 1 0; SimpleVirus.new 1 0] 4)
     = offspring ++ surv) /\
  (TreatedPatient.maxPop treated_ex = TreatedPatient.maxPop treated_ex /\
   TreatedPatient.presDrugs treated_ex = TreatedPatient.presDrugs treated_ex /\
   exists surv s1 offspring,
     survival_loop ResistantVirus.doesClear (TreatedPatient.viruses treated_ex)
       half_draws 0%nat = Normal surv s1 /\
     subseq surv (TreatedPatient.viruses treated_ex) /\
     TreatedPatient.viruses treated_ex = offspring ++ surv).
Proof.
  split.
  - apply (proj1 update_frame patient_ex half_draws 0%nat
             (Patient.new [SimpleVirus.new 1 0; SimpleVirus.new 1 0] 4) 2%nat 3%nat).
    vm_compute. reflexivity.
  - apply (proj2 update_frame treated_ex half_draws 0%nat treated_ex 3%nat 5%nat).
    vm_compute. reflexivity.
Defined.

Lemma offspring_inherits_parameters_witness :
  ResistantVirus.getMaxBirthProb (ResistantVirus.new 1 0 [("X"%string, false)] 1)
  = ResistantVirus.getMaxBirthProb virus_X_resistant /\
  ResistantVirus.getClearProb (ResistantVirus.new 1 0 [("X"%string, false)] 1)
  = ResistantVirus.getClearProb virus_X_resistant /\
  ResistantVirus.getMutProb (ResistantVirus.new 1 0 [("X"%string, false)] 1)
  = ResistantVirus.getMutProb virus_X_resistant /\
  Dict.keys (ResistantVirus.getResistances (ResistantVirus.new 1 0 [("X"%string, false)] 1))
  = Dict.keys (ResistantVirus.getResistances virus_X_resistant) /\
  2%nat = (0 + 1 + length (ResistantVirus.resistance virus_X_resistant))%nat.
Proof.
  apply (offspring_inherits_parameters virus_X_resistant 0 [] half_draws 0%nat).
  - unfold Dict.wf. cbn. constructor; [intros [] | constructor].
  - reflexivity.
Defined.

Lemma mutProb_zero_offspring_identical_witness :
  ResistantVirus.getResistances
    (ResistantVirus.new 1 0 [("X"%string, true); ("Y"%string, false)] 0)
  = ResistantVirus.getResistances
      (ResistantVirus.new 1 0 [("X"%string, true); ("Y"%string, false)] 0).
Proof.
  apply (mutProb_zero_offspring_identical
           (ResistantVirus.new 1 0 [("X"%string, true); ("Y"%string, false)] 0)
           0 [] half_draws 0%nat
           (ResistantVirus.new 1 0 [("X"%string, true); ("Y"%string, false)] 0) 3%nat).
  - exact half_draws_unit.
  - unfold Dict.wf. cbn. constructor.
    + intros [H|[]]. discriminate H.
    + constructor; [intros [] | constructor].
  - reflexivity.
  - reflexivity.
Defined.

Lemma reproduce_active_drugs_as_set_witness :
  ResistantVirus.reproduce virus_X_resistant (1 # 4)
    ["X"%string; "Y"%string; "X"%string] half_draws 0%nat
  = ResistantVirus.reproduce virus_X_resistant (1 # 4)
      ["Y"%string; "X"%string] half_draws 0%nat.
Proof.
  apply (reproduce_active_drugs_as_set virus_X_resistant (1 # 4)
           ["X"%string; "Y"%string; "X"%string] ["Y"%string; "X"%string]
           half_draws 0%nat).
  intros d. cbn. tauto.
Defined.

Lemma reproduce_fewer_drugs_witness :
  ResistantVirus.reproduce virus_X_resistant 0 ["X"%string] half_draws 0%nat
  = Normal (ResistantVirus.new 1 0 [("X"%string, false)] 1) 2%nat.
Proof.
  apply (reproduce_fewer_drugs virus_X_resistant 0
           ["X"%string] ["Y"%string; "X"%string] half_draws 0%nat).
  - intros d [<-|[]]. right. now left.
  - reflexivity.
Defined.

Lemma reproduce_fully_resistant_witness :
  ResistantVirus.reproduce virus_X_resistant (1 # 4) ["X"%string; "X"%string] half_draws 0%nat
  = ResistantVirus.reproduce virus_X_resistant (1 # 4) [] half_draws 0%nat.
Proof.
  apply (reproduce_fully_resistant virus_X_resistant (1 # 4)
           ["X"%string; "X"%string] half_draws 0%nat).
  intros d [<-|[<-|[]]]; reflexivity.
Defined.

Lemma getResistPop_antitone_witness :
  (TreatedPatient.getResistPop treated_ex ["X"%string; "Y"%string]
   <= TreatedPatient.getResistPop treated_ex ["X"%string])%nat /\
  (TreatedPatient.getResistPop treated_ex ["X"%string]
   <= TreatedPatient.getTotalPop treated_ex)%nat /\
  TreatedPatient.getResistPop treated_ex [] = TreatedPatient.getTotalPop treated_ex.
Proof.
  apply (getResistPop_antitone treated_ex ["X"%string] ["X"%string; "Y"%string]).
  intros d [<-|[]]. now left.
Defined.

Lemma Patient_update_draws_witness :
  exists surv,
    survival_loop SimpleVirus.doesClear (Patient.getViruses patient_ex) half_draws 0%nat
    = Normal surv (0 + Patient.getTotalPop patient_ex)%nat /\
    3%nat = (0 + Patient.getTotalPop patient_ex + length surv)%nat.
Proof.
  apply (Patient_update_draws patient_ex half_draws 0%nat
           (Patient.new [SimpleVirus.new 1 0; SimpleVirus.new 1 0] 4) 2%nat 3%nat).
  vm_compute. reflexivity.
Defined.

Lemma update_zero_maxPop_witness :
  Patient.update (Patient.new [SimpleVirus.new 1 0] 0) half_draws 0%nat
  = Raised ZeroDivisionError 1%nat /\
  TreatedPatient.update (TreatedPatient.new [] 0) half_draws 0%nat
  = Raised ZeroDivisionError 0%nat.
Proof.
  split.
  - apply (proj1 update_zero_maxPop (Patient.new [SimpleVirus.new 1 0] 0) half_draws 0%nat).
    reflexivity.
  - apply (proj2 update_zero_maxPop (TreatedPatient.new [] 0) half_draws 0%nat).
    reflexivity.
Defined.

Lemma update_total_population_witness :
  (2%nat = Patient.getTotalPop (Patient.new [SimpleVirus.new 1 0; SimpleVirus.new 1 0] 4) /\
   (2 <= 2 * Patient.getTotalPop patient_ex)%nat) /\
  (3%nat = TreatedPatient.getTotalPop treated_ex /\
   (3 <= 2 * TreatedPatient.getTotalPop treated_ex)%nat).
Proof.
  split.
  - apply (proj1 update_total_population patient_ex half_draws 0%nat
             (Patient.new [SimpleVirus.new 1 0; SimpleVirus.new 1 0] 4) 2%nat 3%nat).
    vm_compute. reflexivity.
  - apply (proj2 update_total_population treated_ex half_draws 0%nat
             treated_ex 3%nat 5%nat).
    vm_compute. reflexivity.
Defined.

Lemma update_saturated_witness :
  (Patient.getViruses (Patient.new [SimpleVirus.new 1 0; SimpleVirus.new 1 0] 1)
   = [SimpleVirus.new 1 0; SimpleVirus.new 1 0] /\
   2%nat = length [SimpleVirus.new 1 0; SimpleVirus.new 1 0]) /\
  (TreatedPatient.getViruses (TreatedPatient.new' [virus_X_resistant] 1 [])
   = [virus_X_resistant] /\
   1%nat = length [virus_X_resistant]).
Proof.
  split.
  - apply (proj1 update_saturated
             (Patient.new [SimpleVirus.new 1 0; SimpleVirus.new 1 0] 1) half_draws 0%nat
             (Patient.new [SimpleVirus.new 1 0; SimpleVirus.new 1 0] 1) 2%nat 4%nat
             [SimpleVirus.new 1 0; SimpleVirus.new 1 0] 2%nat).
    + intros i. unfold half_draws. split; lra.
    + reflexivity.
    + cbn. intros v [<-|[<-|[]]]; cbn; lra.
    + vm_compute. reflexivity.
    + vm_compute. reflexivity.
    + cbn. lia.
  - apply (proj2 update_saturated
             (TreatedPatient.new' [virus_X_resistant] 1 []) half_draws 0%nat
             (TreatedPatient.new' [virus_X_resistant] 1 []) 1%nat 2%nat
             [virus_X_resistant] 1%nat).
    + intros i. unfold half_draws. split; lra.
    + reflexivity.
    + cbn. intros v [<-|[]]; cbn; lra.
    + vm_compute. reflexivity.
    + vm_compute. reflexivity.
    + cbn. lia.
Defined.

Lemma Patient_update_no_new_kind_witness :
  exists v, In v (Patient.getViruses patient_ex) /\
            SimpleVirus.getMaxBirthProb (SimpleVirus.new 1 0) = SimpleVirus.getMaxBirthProb v /\
            SimpleVirus.getClearProb (SimpleVirus.new 1 0) = SimpleVirus.getClearProb v.
Proof.
  apply (Patient_update_no_new_kind patient_ex half_draws 0%nat
           (Patient.new [SimpleVirus.new 1 0; SimpleVirus.new 1 0] 4) 2%nat 3%nat).
  - vm_compute. reflexivity.
  - cbn. now left.
Defined.

Lemma Patient_trials_one_run_witness :
  Patient_trial (2 * 2) patient_ex [] half_draws 0%nat
  = Normal (Patient.new
              [SimpleVirus.new 1 0; SimpleVirus.new 1 0; SimpleVirus.new 1 0; SimpleVirus.new 1 0] 4,
            concat [[2; 4]; [4; 4]]%nat) 23%nat /\
  length [[2; 4]; [4; 4]]%nat = 2%nat /\
  Forall (fun row => length row = 2%nat) [[2; 4]; [4; 4]]%nat.
Proof.
  apply (Patient_trials_one_run 2 2 patient_ex half_draws 0%nat).
  vm_compute. reflexivity.
Defined.

Lemma Patient_trial_bounded_witness :
  Forall (fun c => (Z.of_nat c <= Z.max (Z.of_nat (Patient.getTotalPop patient_ex))
                                        (2 * Patient.getMaxPop patient_ex))%Z)
         [2; 4; 4; 4]%nat.
Proof.
  apply (Patient_trial_bounded 4 patient_ex half_draws 0%nat
           (Patient.new
              [SimpleVirus.new 1 0; SimpleVirus.new 1 0; SimpleVirus.new 1 0; SimpleVirus.new 1 0] 4)
           [2; 4; 4; 4]%nat 23%nat).
  - intros i. unfold half_draws. split; lra.
  - reflexivity.
  - cbn. intros v [<-|[<-|[]]]; cbn; lra.
  - vm_compute. reflexivity.
Defined.

Lemma TreatedPatient_trial_series_witness :
  length [3; 3]%nat = 2%nat /\
  length [1; 1]%nat = 2%nat /\
  Forall2 le [1; 1]%nat [3; 3]%nat.
Proof.
  apply (TreatedPatient_trial_series [("X"%string, false)] 2 0 treated_ex half_draws 0%nat
           treated_ex [3; 3]%nat [1; 1]%nat 10%nat).
  vm_compute. reflexivity.
Defined.

Lemma TreatedPatient_trial_prescribes_at_50_witness :
  ((51 <= 50)%nat ->
   TreatedPatient.getPrescriptions (TreatedPatient.new' [] 4 ["X"%string; "Y"%string]) = []) /\
  ((50 < 51)%nat ->
   NoDup (TreatedPatient.getPrescriptions (TreatedPatient.new' [] 4 ["X"%string; "Y"%string])) /\
   forall d, In d (TreatedPatient.getPrescriptions
                     (TreatedPatient.new' [] 4 ["X"%string; "Y"%string]))
             <-> In d (Dict.keys [("X"%string, false); ("Y"%string, true)])).
Proof.
  apply (TreatedPatient_trial_prescribes_at_50
           [("X"%string, false); ("Y"%string, true)] 51 [] 4 half_draws 0%nat
           (TreatedPatient.new' [] 4 ["X"%string; "Y"%string])
           (repeat 0%nat 51, repeat 0%nat 51) 0%nat).
  vm_compute. reflexivity.
Defined.

Lemma reproduce_extends_base_witness :
  SimpleVirus.reproduce (ResistantVirus.base virus_X_resistant) (1 # 4) half_draws 0%nat =
  match ResistantVirus.reproduce virus_X_resistant (1 # 4) ["X"%string; "Y"%string]
          half_draws 0%nat with
  | Normal child _ => Normal (ResistantVirus.base child) 1%nat
  | Raised e s1 => Raised e s1
  end.
Proof.
  apply (reproduce_extends_base virus_X_resistant (1 # 4) ["X"%string; "Y"%string]
           half_draws 0%nat).
  intros d [<-|[<-|[]]]; discriminate.
Defined.

Lemma update_without_resistance_entries_witness :
  Patient.update (as_Patient (TreatedPatient.new' [virus_no_entry; virus_no_entry] 4
                                                  ["X"%string])) half_draws 0%nat =
  match TreatedPatient.update
          (TreatedPatient.new' [virus_no_entry; virus_no_entry] 4 ["X"%string])
          half_draws 0%nat with
  | Normal (p', n) s' => Normal (as_Patient p', n) s'
  | Raised e s' => Raised e s'
  end.
Proof.
  apply (update_without_resistance_entries
           (TreatedPatient.new' [virus_no_entry; virus_no_entry] 4 ["X"%string])
           half_draws 0%nat).
  cbn. intros v [<-|[<-|[]]]; reflexivity.
Defined.

Lemma offspring_trait_by_draw_witness :
  exists b',
    nth_error (ResistantVirus.resistance (ResistantVirus.new 1 0 [("X"%string, false)] 1))
              0%nat = Some ("X"%string, b') /\
    (b' = true <->
     (true = true /\
      half_draws (1 + 0)%nat < fsub 1 (ResistantVirus.mutProb virus_X_resistant)) \/
     (true = false /\ half_draws (1 + 0)%nat < ResistantVirus.mutProb virus_X_resistant)).
Proof.
  apply (offspring_trait_by_draw virus_X_resistant 0 [] half_draws 0%nat
           (ResistantVirus.new 1 0 [("X"%string, false)] 1) 2%nat 0%nat "X"%string true).
  - unfold Dict.wf. cbn. constructor; [intros [] | constructor].
  - reflexivity.
  - reflexivity.
Defined.

Lemma reproduce_raises_iff_witness :
  NoChildException = NoChildException /\ (0%nat = 0%nat \/ 0%nat = 1%nat).
Proof.
  apply (proj1 (reproduce_raises_iff
                  (ResistantVirus.new 1 0 [("X"%string, false)] 0) 0 ["X"%string]
                  half_draws 0%nat)
               NoChildException 0%nat).
  reflexivity.
Defined.






